(** * CodeGPT Deep Graph MCP server: a shallow embedding of [index.ts]

    The development follows the source file from top to bottom:
    JavaScript values and JSON text, the process-wide [config] object,
    the tool handlers registered by [registerTools], the CLI processing of
    [createServer], and the session table of [startHttpServer].  The
    theorems come after the definitions. *)

From Stdlib Require Import String Ascii List Bool Arith ZArith Lia DecimalString.
Import ListNotations.
Open Scope string_scope.

Set Implicit Arguments.

(* ================================================================== *)
(** ** JavaScript values *)
(* ================================================================== *)

(** A value of TypeScript type [string | undefined]: [None] is
    [undefined].  [truthy v] is the test JavaScript performs in
    [if (v)], [!v], [v || d] and [v ? a : b]. *)
Definition truthy (v : option string) : bool :=
  match v with
  | Some s => negb (s =? "")
  | None => false
  end.

(** [a || b] on [string | undefined]. *)
Definition or_else (a b : option string) : option string :=
  if truthy a then a else b.

(** The textual form a template literal gives to [string | undefined]. *)
Definition template (v : option string) : string :=
  match v with
  | Some s => s
  | None => "undefined"
  end.

(** [Error] objects: [new Error(msg)] has name [Error]; [fetch] rejects
    with a [TypeError], [response.json()] with a [SyntaxError]. *)
Record JsError := mkError { err_name : string; err_message : string }.

Definition Error (msg : string) : JsError := mkError "Error" msg.

(** [Error.prototype.toString], which is what [`${error}`] calls. *)
Definition error_toString (e : JsError) : string :=
  if err_name e =? "" then err_message e
  else if err_message e =? "" then err_name e
  else err_name e ++ ": " ++ err_message e.

Inductive Result (A : Type) : Type :=
| Ok (a : A)
| Throw (e : JsError).
Arguments Ok {A} a.
Arguments Throw {A} e.

(** Parsed JSON, as [response.json()] resolves to.  Numbers are kept to
    the integers; an object lists its properties in enumeration order. *)
#[warnings="-register-all"]
Inductive Json : Type :=
| JNull
| JBool (b : bool)
| JNum (z : Z)
| JStr (s : string)
| JArr (items : list Json)
| JObj (props : list (string * Json)).

(** A JavaScript value that may also be [undefined]. *)
Definition JsValue := option Json.

Definition json_truthy (j : Json) : bool :=
  match j with
  | JNull => false
  | JBool b => b
  | JNum z => negb (z =? 0)%Z
  | JStr s => negb (s =? "")
  | JArr _ | JObj _ => true
  end.

Definition value_truthy (v : JsValue) : bool :=
  match v with
  | Some j => json_truthy j
  | None => false
  end.

(** [v || d] where [d] is a value that is never [undefined]. *)
Definition value_or (v : JsValue) (d : Json) : Json :=
  match v with
  | Some j => if json_truthy j then j else d
  | None => d
  end.

Definition string_of_Z (z : Z) : string :=
  NilZero.string_of_int (Z.to_int z).

Fixpoint join (sep : string) (parts : list string) : string :=
  match parts with
  | [] => ""
  | [p] => p
  | p :: rest => p ++ sep ++ join sep rest
  end.

(** [String(j)], the conversion behind [`${j}`]: an array joins its
    elements with commas, printing [null] elements as nothing. *)
Fixpoint json_toString (j : Json) : string :=
  match j with
  | JNull => "null"
  | JBool b => if b then "true" else "false"
  | JNum z => string_of_Z z
  | JStr s => s
  | JArr items =>
      join "," (map (fun e => match e with
                              | JNull => ""
                              | _ => json_toString e
                              end) items)
  | JObj _ => "[object Object]"
  end.

Definition value_template (v : JsValue) : string :=
  match v with
  | Some j => json_toString j
  | None => "undefined"
  end.

(** *** [JSON.stringify] *)

Definition dquote : string := String (ascii_of_nat 34) EmptyString.
Definition backslash : string := String (ascii_of_nat 92) EmptyString.
Definition newline : string := String (ascii_of_nat 10) EmptyString.

Definition hex_digit (n : nat) : string :=
  String (nth n ["0"; "1"; "2"; "3"; "4"; "5"; "6"; "7"; "8"; "9";
                 "a"; "b"; "c"; "d"; "e"; "f"]%char "0"%char) EmptyString.

(** QuoteJSONString on one code unit. *)
Definition escape_char (c : ascii) : string :=
  let n := nat_of_ascii c in
  if (n =? 8)%nat then backslash ++ "b"
  else if (n =? 9)%nat then backslash ++ "t"
  else if (n =? 10)%nat then backslash ++ "n"
  else if (n =? 12)%nat then backslash ++ "f"
  else if (n =? 13)%nat then backslash ++ "r"
  else if (n =? 34)%nat then backslash ++ dquote
  else if (n =? 92)%nat then backslash ++ backslash
  else if (n <? 32)%nat then backslash ++ "u00" ++ hex_digit (n / 16) ++ hex_digit (n mod 16)
  else String c EmptyString.

Fixpoint escape (s : string) : string :=
  match s with
  | EmptyString => EmptyString
  | String c rest => escape_char c ++ escape rest
  end.

Definition quote (s : string) : string := dquote ++ escape s ++ dquote.

(** SerializeJSONProperty with gap [gap] at indentation [indent];
    [gap] is empty for [JSON.stringify(v)] and two spaces for
    [JSON.stringify(v, null, 2)]. *)
Fixpoint serialize (gap indent : string) (j : Json) : string :=
  let inner := indent ++ gap in
  let wrap (opening closing : string) (parts : list string) : string :=
    match parts with
    | [] => opening ++ closing
    | _ =>
        if gap =? "" then opening ++ join "," parts ++ closing
        else opening ++ newline ++ inner
               ++ join ("," ++ newline ++ inner) parts
               ++ newline ++ indent ++ closing
    end in
  match j with
  | JNull => "null"
  | JBool b => if b then "true" else "false"
  | JNum z => string_of_Z z
  | JStr s => quote s
  | JArr items => wrap "[" "]" (map (serialize gap inner) items)
  | JObj props =>
      wrap "{" "}"
        (map (fun p => quote (fst p) ++ (if gap =? "" then ":" else ": ")
                         ++ serialize gap inner (snd p)) props)
  end.

(** [JSON.stringify(v)] and [JSON.stringify(v, null, 2)].  The result is
    [undefined] exactly when [v] is. *)
Definition JSON_stringify (v : JsValue) : option string :=
  option_map (serialize "" "") v.

Definition JSON_stringify_2 (v : JsValue) : option string :=
  option_map (serialize "  " "") v.

(** An object literal whose property values may be [undefined];
    [JSON.stringify] leaves those properties out. *)
Definition object_literal (props : list (string * option string)) : Json :=
  JObj (flat_map (fun p => match snd p with
                           | Some s => [(fst p, JStr s)]
                           | None => []
                           end) props).

(** [a || d] where [a] is [string | undefined] and [d] a string. *)
Definition or_default (a : option string) (d : string) : string :=
  match a with
  | Some s => if s =? "" then d else s
  | None => d
  end.

(** Property lookup in a parsed object; [undefined] when there is no
    such own property. *)
Fixpoint assoc (k : string) (props : list (string * Json)) : JsValue :=
  match props with
  | [] => None
  | (k', v) :: rest => if k' =? k then Some v else assoc k rest
  end.

Definition destructure_null : JsError :=
  mkError "TypeError"
    "Cannot destructure property 'content' of '(intermediate value)' as it is null.".

(** [payload.content] on a value that is not [null]. *)
Definition content_of (payload : Json) : JsValue :=
  match payload with
  | JObj props => assoc "content" props
  | _ => None
  end.

(** [const { content } = payload]: destructuring [null] throws. *)
Definition destructure_content (payload : Json) : Result JsValue :=
  match payload with
  | JNull => Throw destructure_null
  | _ => Ok (content_of payload)
  end.

(* ================================================================== *)
(** ** The [config] object and the helpers of [utils.js] *)
(* ================================================================== *)

(** The mutable object imported from [./config.js], with the fields the
    source reads and writes. *)
Record Config := mkConfig {
  CODEGPT_API_KEY : option string;
  CODEGPT_ORG_ID : option string;
  CODEGPT_GRAPH_ID : option string;
  CODEGPT_REPO_URL : option string;
  IS_MULTI_REPO : bool;
  REPO_LIST : option (list string)
}.

Definition set_API_KEY (v : option string) (c : Config) : Config :=
  mkConfig v (CODEGPT_ORG_ID c) (CODEGPT_GRAPH_ID c) (CODEGPT_REPO_URL c)
           (IS_MULTI_REPO c) (REPO_LIST c).
Definition set_ORG_ID (v : option string) (c : Config) : Config :=
  mkConfig (CODEGPT_API_KEY c) v (CODEGPT_GRAPH_ID c) (CODEGPT_REPO_URL c)
           (IS_MULTI_REPO c) (REPO_LIST c).
Definition set_GRAPH_ID (v : option string) (c : Config) : Config :=
  mkConfig (CODEGPT_API_KEY c) (CODEGPT_ORG_ID c) v (CODEGPT_REPO_URL c)
           (IS_MULTI_REPO c) (REPO_LIST c).
Definition set_REPO_URL (v : option string) (c : Config) : Config :=
  mkConfig (CODEGPT_API_KEY c) (CODEGPT_ORG_ID c) (CODEGPT_GRAPH_ID c) v
           (IS_MULTI_REPO c) (REPO_LIST c).
Definition set_MULTI_REPO (b : bool) (c : Config) : Config :=
  mkConfig (CODEGPT_API_KEY c) (CODEGPT_ORG_ID c) (CODEGPT_GRAPH_ID c)
           (CODEGPT_REPO_URL c) b (REPO_LIST c).
Definition set_REPO_LIST (l : option (list string)) (c : Config) : Config :=
  mkConfig (CODEGPT_API_KEY c) (CODEGPT_ORG_ID c) (CODEGPT_GRAPH_ID c)
           (CODEGPT_REPO_URL c) (IS_MULTI_REPO c) l.

(** The two functions the source imports from [./utils.js] and calls.
    Both read nothing but their argument and [config], and both may
    throw: [extractRepoInfo] is called inside a [try]. *)
Class Utils := {
  getGraphId : Config -> option string -> Result (option string);
  extractRepoInfo : string -> Result (string * string)
}.

(* ================================================================== *)
(** ** The Remote Graph Client: [fetch] and [response.json()] *)
(* ================================================================== *)

Record HttpCall := mkCall {
  call_url : string;
  call_method : string;
  call_headers : list (string * option string);
  call_body : option string
}.

(** What [response.json()] will do with the body that came back. *)
Inductive Response :=
| Body (payload : Json)
| Malformed (e : JsError).

(** What the remote side does with a call: [fetch] rejects, or resolves
    to a response. *)
Inductive Reply :=
| Rejected (e : JsError)
| Resolved (r : Response).

Definition Remote := HttpCall -> Reply.

(** Handler code runs against a remote side, appends the calls it makes
    to a trace, and either returns or throws. *)
Definition M (A : Type) : Type :=
  Remote -> list HttpCall -> list HttpCall * Result A.

Definition ret {A} (a : A) : M A := fun _ trace => (trace, Ok a).

Definition throw {A} (e : JsError) : M A := fun _ trace => (trace, Throw e).

Definition bind {A B} (m : M A) (k : A -> M B) : M B :=
  fun remote trace =>
    match m remote trace with
    | (trace', Ok a) => k a remote trace'
    | (trace', Throw e) => (trace', Throw e)
    end.

Definition try_catch {A} (m : M A) (handler : JsError -> M A) : M A :=
  fun remote trace =>
    match m remote trace with
    | (trace', Ok a) => (trace', Ok a)
    | (trace', Throw e) => handler e remote trace'
    end.

Definition lift {A} (r : Result A) : M A := fun _ trace => (trace, r).

Definition fetch (c : HttpCall) : M Response :=
  fun remote trace =>
    ((trace ++ [c])%list,
     match remote c with
     | Rejected e => Throw e
     | Resolved r => Ok r
     end).

Definition response_json (r : Response) : M Json :=
  lift (match r with
        | Body payload => Ok payload
        | Malformed e => Throw e
        end).

Declare Scope js_scope.
Delimit Scope js_scope with js.
Notation "x <- m ;; k" := (bind m (fun x => k))
  (at level 61, m at next level, right associativity) : js_scope.
Open Scope js_scope.

(** Running a handler from an empty trace. *)
Definition run {A} (m : M A) (remote : Remote) : list HttpCall * Result A :=
  m remote [].

(* ================================================================== *)
(** ** Tool handlers *)
(* ================================================================== *)

Definition CODEGPT_API_BASE : string := "https://api-mcp.codegpt.co/api/v1".

(** The argument object of a tool call, read by property name; a
    property the caller left out is [undefined]. *)
Definition Args := string -> option string.

Definition no_args : Args := fun _ => None.

Definition with_arg (key value : string) (a : Args) : Args :=
  fun k => if k =? key then Some value else a k.

Record Content := mkContent { type : string; text : Json }.
Record Envelope := mkEnvelope { content : list Content }.

Definition text_result (t : Json) : Envelope :=
  mkEnvelope [mkContent "text" t].

Definition get_headers (cfg : Config) : list (string * option string) :=
  [("accept", Some "application/json");
   ("authorization", Some ("Bearer " ++ template (CODEGPT_API_KEY cfg)));
   ("CodeGPT-Org-Id", CODEGPT_ORG_ID cfg)].

Definition post_headers (cfg : Config) : list (string * option string) :=
  (get_headers cfg ++ [("content-type", Some "application/json")])%list.

(** [...(v ? { key: v } : null)] inside an object literal. *)
Definition spread (key : string) (v : option string) : list (string * option string) :=
  if truthy v then [(key, v)] else [].

Definition post (path : string) (cfg : Config) (body : list (string * option string))
  : M Response :=
  fetch (mkCall (CODEGPT_API_BASE ++ path) "POST" (post_headers cfg)
                (JSON_stringify (Some (object_literal body)))).

Definition targetRepoUrl (cfg : Config) (a : Args) : option string :=
  if IS_MULTI_REPO cfg then a "repository" else CODEGPT_REPO_URL cfg.

Section Handlers.
Context {utils : Utils}.

Definition list_graphs (cfg : Config) (_ : Args) : M Envelope :=
  try_catch
    (response <- fetch (mkCall (CODEGPT_API_BASE ++ "/mcp/graphs") "GET"
                               (get_headers cfg) None) ;;
     data <- response_json response ;;
     ret (text_result
            (JStr (or_default (JSON_stringify_2 (Some data)) "No graphs available"))))
    (fun error =>
       ret (text_result (JStr ("Error fetching graphs: " ++ error_toString error)))).

Definition get_code (cfg : Config) (a : Args) : M Envelope :=
  if negb (truthy (a "name")) then throw (Error "name is required") else
  targetGraphId <- lift (getGraphId cfg (a "graphId")) ;;
  let targetRepoUrl := targetRepoUrl cfg a in
  try_catch
    (response <- post "/mcp/graphs/get-code" cfg
                   ([("graphId", targetGraphId); ("name", a "name")]
                      ++ spread "repoUrl" targetRepoUrl
                      ++ spread "path" (a "path"))%list ;;
     payload <- response_json response ;;
     content <- lift (destructure_content payload) ;;
     ret (text_result
            (JStr (or_default (Some (value_template content))
                              "No response text available"))))
    (fun error => ret (text_result (JStr (error_toString error)))).

Definition find_direct_connections (cfg : Config) (a : Args) : M Envelope :=
  if negb (truthy (a "name")) then throw (Error "name is required") else
  targetGraphId <- lift (getGraphId cfg (a "graphId")) ;;
  let targetRepoUrl := targetRepoUrl cfg a in
  try_catch
    (response <- post "/mcp/graphs/find-direct-connections" cfg
                   ([("graphId", targetGraphId); ("name", a "name")]
                      ++ spread "repoUrl" targetRepoUrl
                      ++ spread "path" (a "path"))%list ;;
     payload <- response_json response ;;
     content <- lift (destructure_content payload) ;;
     ret (text_result (value_or content (JStr "No response data available"))))
    (fun error => ret (text_result (JStr (error_toString error)))).

Definition nodes_semantic_search (cfg : Config) (a : Args) : M Envelope :=
  if negb (truthy (a "query")) then throw (Error "query is required") else
  targetGraphId <- lift (getGraphId cfg (a "graphId")) ;;
  let targetRepoUrl := targetRepoUrl cfg a in
  try_catch
    (response <- post "/mcp/graphs/nodes-semantic-search" cfg
                   ([("graphId", targetGraphId); ("query", a "query")]
                      ++ spread "repoUrl" targetRepoUrl)%list ;;
     payload <- response_json response ;;
     content <- lift (destructure_content payload) ;;
     ret (text_result (value_or content (JStr "No response data available"))))
    (fun error => ret (text_result (JStr (error_toString error)))).

Definition docs_semantic_search (cfg : Config) (a : Args) : M Envelope :=
  if negb (truthy (a "query")) then throw (Error "query is required") else
  targetGraphId <- lift (getGraphId cfg (a "graphId")) ;;
  let targetRepoUrl := targetRepoUrl cfg a in
  try_catch
    (response <- post "/mcp/graphs/docs-semantic-search" cfg
                   ([("graphId", targetGraphId); ("query", a "query")]
                      ++ spread "repoUrl" targetRepoUrl)%list ;;
     data <- response_json response ;;
     ret (text_result
            (JStr (or_default (JSON_stringify_2 (Some data))
                              "No response data available"))))
    (fun error => ret (text_result (JStr (error_toString error)))).

Definition folder_tree_structure (cfg : Config) (a : Args) : M Envelope :=
  targetGraphId <- lift (getGraphId cfg (a "graphId")) ;;
  let targetRepoUrl := targetRepoUrl cfg a in
  try_catch
    (response <- post "/mcp/graphs/folder-tree-structure" cfg
                   ([("graphId", targetGraphId)]
                      ++ spread "repoUrl" targetRepoUrl
                      ++ [("path", Some (or_default (a "path") ""))])%list ;;
     payload <- response_json response ;;
     content <- lift (destructure_content payload) ;;
     ret (text_result (value_or content (JStr "No response data available"))))
    (fun error => ret (text_result (JStr (error_toString error)))).

Definition get_usage_dependency_links (cfg : Config) (a : Args) : M Envelope :=
  if negb (truthy (a "name")) then throw (Error "name is required") else
  targetGraphId <- lift (getGraphId cfg (a "graphId")) ;;
  let targetRepoUrl := targetRepoUrl cfg a in
  try_catch
    (response <- post "/mcp/graphs/get-usage-dependency-links" cfg
                   ([("graphId", targetGraphId); ("name", a "name")]
                      ++ spread "repoUrl" targetRepoUrl
                      ++ spread "path" (a "path"))%list ;;
     payload <- response_json response ;;
     content <- lift (destructure_content payload) ;;
     ret (text_result (value_or content (JStr "No response data available"))))
    (fun error => ret (text_result (JStr (error_toString error)))).

End Handlers.

(* ================================================================== *)
(** ** Tool registration *)
(* ================================================================== *)

(** A registered tool.  The description of every tool but [list-graphs]
    interpolates the repository label, kept in [tool_repository]; the
    prose of the descriptions is left out.  [tool_params] lists the
    parameters of the schema handed to [createToolSchema], each with
    [true] for [z.string().min(1, ...)] and [false] for [.optional()]. *)
Record Tool := mkTool {
  tool_name : string;
  tool_repository : option string;
  tool_params : list (string * bool);
  tool_handler : Config -> Args -> M Envelope
}.

Record McpServer := mkMcpServer { tools : list Tool }.

(** [new McpServer({...})]. *)
Definition new_McpServer : McpServer := mkMcpServer [].

(** [server.tool(name, description, schema, handler)]. *)
Definition server_tool (name : string) (repository : option string)
    (params : list (string * bool))
    (handler : Config -> Args -> M Envelope) (server : McpServer) : McpServer :=
  mkMcpServer (tools server ++ [mkTool name repository params handler])%list.

Definition has_tool (name : string) (server : McpServer) : bool :=
  existsb (fun t => tool_name t =? name) (tools server).

Section Registration.
Context {utils : Utils}.

Definition registerTools (cfg : Config) (server : McpServer) (repository : string)
  : McpServer :=
  let server :=
    if negb (truthy (CODEGPT_GRAPH_ID cfg)) && negb (truthy (CODEGPT_REPO_URL cfg))
       && negb (IS_MULTI_REPO cfg)
    then server_tool "list-graphs" None [] list_graphs server
    else server in
  let server := server_tool "get-code" (Some repository)
                            [("name", true); ("path", false)] get_code server in
  let server := server_tool "find-direct-connections" (Some repository)
                            [("name", true); ("path", false)]
                            find_direct_connections server in
  let server := server_tool "nodes-semantic-search" (Some repository)
                            [("query", true)] nodes_semantic_search server in
  let server := server_tool "docs-semantic-search" (Some repository)
                            [("query", true)] docs_semantic_search server in
  let server := server_tool "folder-tree-structure" (Some repository)
                            [("path", false)] folder_tree_structure server in
  server_tool "get-usage-dependency-links" (Some repository)
              [("name", true); ("path", false)] get_usage_dependency_links server.

(** The tools [registerTools] adds, as values: the conditional one and
    the six that follow it. *)
Definition fixed_tools (repository : string) : list Tool :=
  [ mkTool "get-code" (Some repository) [("name", true); ("path", false)] get_code;
    mkTool "find-direct-connections" (Some repository)
           [("name", true); ("path", false)] find_direct_connections;
    mkTool "nodes-semantic-search" (Some repository) [("query", true)]
           nodes_semantic_search;
    mkTool "docs-semantic-search" (Some repository) [("query", true)]
           docs_semantic_search;
    mkTool "folder-tree-structure" (Some repository) [("path", false)]
           folder_tree_structure;
    mkTool "get-usage-dependency-links" (Some repository)
           [("name", true); ("path", false)] get_usage_dependency_links ].

Definition list_graphs_tool : Tool := mkTool "list-graphs" None [] list_graphs.

(** The block that computes [repository] before each call of
    [registerTools]; a throwing [extractRepoInfo] is caught and leaves
    the label empty. *)
Definition repository_label (cfg : Config) : string :=
  if truthy (CODEGPT_REPO_URL cfg) && negb (IS_MULTI_REPO cfg) then
    match extractRepoInfo (template (CODEGPT_REPO_URL cfg)) with
    | Ok (repoOrg, repoName) => repoOrg ++ "/" ++ repoName
    | Throw _ => ""
    end
  else "".

End Registration.

(* ================================================================== *)
(** ** [createServer]: user configuration and CLI arguments *)
(* ================================================================== *)

Record ServerConfig := mkServerConfig {
  apiKey : string;
  orgId : option string;
  graphId : option string;
  repoUrl : option string
}.

(** [s.includes(needle)] and [s.startsWith(p)]. *)
Fixpoint includes (needle s : string) : bool :=
  prefix needle s ||
  match s with
  | EmptyString => false
  | String _ rest => includes needle rest
  end.

Definition startsWith (p s : string) : bool := prefix p s.

Definition apply_userConfig (userConfig : ServerConfig) (cfg : Config) : Config :=
  let cfg := set_API_KEY (Some (apiKey userConfig)) cfg in
  let cfg := if truthy (orgId userConfig) then set_ORG_ID (orgId userConfig) cfg else cfg in
  let cfg := if truthy (graphId userConfig) then set_GRAPH_ID (graphId userConfig) cfg else cfg in
  if truthy (repoUrl userConfig) then set_REPO_URL (repoUrl userConfig) cfg else cfg.

(** The body of [if (!IS_HTTP_MODE && !userConfig)], on
    [args = process.argv.slice(2)]. *)
Definition process_cli (args : list string) (cfg : Config) : Config :=
  let repoUrls :=
    filter (fun arg => includes "/" arg && negb (startsWith "sk-" arg)) args in
  let apiKey := find (fun arg => startsWith "sk-" arg) args in
  if (1 <? length repoUrls)%nat then
    let cfg := set_MULTI_REPO true cfg in
    let cfg := set_REPO_LIST (Some repoUrls) cfg in
    set_API_KEY (or_else apiKey (CODEGPT_API_KEY cfg)) cfg
  else if (length repoUrls =? 1)%nat then
    let cfg := set_REPO_URL (nth_error repoUrls 0) cfg in
    set_API_KEY (or_else apiKey (CODEGPT_API_KEY cfg)) cfg
  else if truthy apiKey then set_API_KEY apiKey cfg
  else cfg.

Section Factory.
Context {utils : Utils}.

(** [createServer({ config: userConfig })]: the configuration it
    leaves behind and the server it returns. *)
Definition createServer (IS_HTTP_MODE : bool) (process_argv : list string)
    (userConfig : option ServerConfig) (cfg : Config) : Config * McpServer :=
  let cfg := match userConfig with
             | Some u => apply_userConfig u cfg
             | None => cfg
             end in
  let server := new_McpServer in
  let cfg :=
    if negb IS_HTTP_MODE && negb (match userConfig with Some _ => true | None => false end)
    then process_cli (skipn 2 process_argv) cfg
    else cfg in
  (cfg, registerTools cfg server (repository_label cfg)).

End Factory.

(* ================================================================== *)
(** ** [startHttpServer]: the session table *)
(* ================================================================== *)

(** JavaScript's [Map<string, V>]: keys are unique and entries are
    enumerated in insertion order, which [onclose] below observes through
    [Array.from(transports.entries()).find(...)]. *)
Module JsMap.
Section Ops.
Variable V : Type.

Definition t := list (string * V).

Definition empty : t := [].

Fixpoint get (k : string) (m : t) : option V :=
  match m with
  | [] => None
  | (k', v) :: rest => if k' =? k then Some v else get k rest
  end.

Definition has (k : string) (m : t) : bool :=
  match get k m with
  | Some _ => true
  | None => false
  end.

(** An existing key keeps its position; a new key goes last. *)
Fixpoint set (k : string) (v : V) (m : t) : t :=
  match m with
  | [] => [(k, v)]
  | (k', v') :: rest =>
      if k' =? k then (k', v) :: rest else (k', v') :: set k v rest
  end.

Fixpoint delete (k : string) (m : t) : t :=
  match m with
  | [] => []
  | (k', v') :: rest =>
      if k' =? k then delete k rest else (k', v') :: delete k rest
  end.

Definition entries (m : t) : list (string * V) := m.
End Ops.
Arguments empty {V}.
End JsMap.

(** A transport object is identified by the order of its construction. *)
Definition Transport := nat.

Record Query := mkQuery {
  config_apiKey : option string;
  config_orgId : option string;
  config_graphId : option string;
  config_repoUrl : option string
}.

Record Request := mkRequest {
  method : string;
  query : Query;
  mcp_session_id : option string
}.

(** The state [startHttpServer] closes over: the imported [config], the
    [transports] map, and the objects the handler has constructed so far
    (each new transport with the [McpServer] connected to it).  The
    diagnostics written with [console.error] are not part of it. *)
Record Server := mkServer {
  config : Config;
  transports : JsMap.t Transport;
  constructed : nat;
  connected : list (Transport * McpServer)
}.

Definition set_config (c : Config) (st : Server) : Server :=
  mkServer c (transports st) (constructed st) (connected st).
Definition set_transports (m : JsMap.t Transport) (st : Server) : Server :=
  mkServer (config st) m (constructed st) (connected st).

(** Where the [/mcp] handler stands when it first yields: it has sent a
    response itself, or it awaits a transport. *)
Inductive Handling :=
| Replied (status : nat) (error : string)
| Delegated (transport : Transport)
| Opened (transport : Transport)
| Deleting (transport : Transport) (sessionId : string).

(** How the awaited [transport.handleRequest(req, res)] settles. *)
Inductive Settled :=
| Fulfilled
| Failed (e : JsError).

Definition apply_query (q : Query) (cfg : Config) : Config :=
  let cfg := if truthy (config_apiKey q) then set_API_KEY (config_apiKey q) cfg else cfg in
  let cfg := if truthy (config_orgId q) then set_ORG_ID (config_orgId q) cfg else cfg in
  let cfg := if truthy (config_graphId q) then set_GRAPH_ID (config_graphId q) cfg else cfg in
  if truthy (config_repoUrl q) then set_REPO_URL (config_repoUrl q) cfg else cfg.

(** [sessionId && transports.has(sessionId)], then
    [transports.get(sessionId)!]. *)
Definition session_transport (sessionId : option string) (m : JsMap.t Transport)
  : option Transport :=
  match sessionId with
  | Some s => if truthy sessionId && JsMap.has s m then JsMap.get s m else None
  | None => None
  end.

Definition api_key_required : string :=
  "API key required. Pass config.apiKey as query parameter or set CODEGPT_API_KEY env var.".

(** [onsessioninitialized], the callback given to the transport
    constructed for a new session. *)
Definition onsessioninitialized (transport : Transport) (newSessionId : string)
    (st : Server) : Server :=
  set_transports (JsMap.set newSessionId transport (transports st)) st.

(** [transport.onclose]: reverse lookup by value, then delete. *)
Definition onclose (transport : Transport) (st : Server) : Server :=
  match find (fun e => (snd e =? transport)%nat) (JsMap.entries (transports st)) with
  | Some (sid, _) =>
      if truthy (Some sid) then set_transports (JsMap.delete sid (transports st)) st
      else st
  | None => st
  end.

Section Http.
Context {utils : Utils}.

(** The handler of [app.all('/mcp', ...)] up to its first [await]. *)
Definition mcp_endpoint (st : Server) (req : Request) : Server * Handling :=
  let st := set_config (apply_query (query req) (config st)) st in
  if negb (truthy (CODEGPT_API_KEY (config st))) then (st, Replied 400 api_key_required)
  else
    let sessionId := mcp_session_id req in
    if method req =? "GET" then
      match session_transport sessionId (transports st) with
      | Some transport => (st, Delegated transport)
      | None => (st, Replied 400 "Invalid or missing session ID")
      end
    else if method req =? "POST" then
      match session_transport sessionId (transports st) with
      | Some transport => (st, Delegated transport)
      | None =>
          let transport := constructed st in
          let mcpServer := new_McpServer in
          let repository := repository_label (config st) in
          let mcpServer := registerTools (config st) mcpServer repository in
          (mkServer (config st) (transports st) (S (constructed st))
                    (connected st ++ [(transport, mcpServer)])%list,
           Opened transport)
      end
    else if method req =? "DELETE" then
      match session_transport sessionId (transports st) with
      | Some transport => (st, Deleting transport (template sessionId))
      | None => (st, Replied 400 "Invalid or missing session ID")
      end
    else (st, Replied 405 "Method not allowed").

(** The rest of the handler, run when the awaited delegation settles.
    Only the DELETE branch has statements left, and a rejected [await]
    throws past them. *)
Definition resume (h : Handling) (outcome : Settled) (st : Server) : Server :=
  match h, outcome with
  | Deleting _ sessionId, Fulfilled =>
      set_transports (JsMap.delete sessionId (transports st)) st
  | _, _ => st
  end.

(** What can happen to the server between two suspension points: a
    request arrives, a transport fires one of its two callbacks, or an
    awaited delegation settles and its handler runs on.  [Settles] is
    not tied to a handler suspended earlier, so the runs of [steps]
    below are those of the program and more. *)
Inductive Event :=
| Arrives (req : Request)
| SessionInitialized (transport : Transport) (newSessionId : string)
| Closes (transport : Transport)
| Settles (h : Handling) (outcome : Settled).

(** [randomUUID()] yields 36 characters; what the table relies on is
    that the identifier is not the empty string. *)
Definition minted (sessionId : string) : bool := negb (sessionId =? "").

(** One event; [None] when the event cannot occur in the state: only a
    constructed transport fires callbacks, and the identifier it
    reports comes from [sessionIdGenerator]. *)
Definition step (st : Server) (ev : Event) : option Server :=
  match ev with
  | Arrives req => Some (fst (mcp_endpoint st req))
  | SessionInitialized transport newSessionId =>
      if (transport <? constructed st)%nat && minted newSessionId
      then Some (onsessioninitialized transport newSessionId st)
      else None
  | Closes transport =>
      if (transport <? constructed st)%nat then Some (onclose transport st) else None
  | Settles h outcome => Some (resume h outcome st)
  end.

Fixpoint steps (st : Server) (evs : list Event) : option Server :=
  match evs with
  | [] => Some st
  | ev :: rest =>
      match step st ev with
      | Some st' => steps st' rest
      | None => None
      end
  end.

(** The state [startHttpServer] begins with. *)
Definition startHttpServer (cfg : Config) : Server :=
  mkServer cfg JsMap.empty 0 [].

End Http.

(* ================================================================== *)
(** ** An instance of [Utils] to run the model with *)
(* ================================================================== *)

(** Modelled from the spec: [utils.js] is not among the sources.  Of
    [getGraphId] the spec says that the explicit override argument takes
    precedence over the process-configured graph id. *)
Definition spec_getGraphId (cfg : Config) (graphId : option string)
  : Result (option string) :=
  Ok (or_else graphId (CODEGPT_GRAPH_ID cfg)).

Fixpoint split_slash (s : string) : option (string * string) :=
  match s with
  | EmptyString => None
  | String c rest =>
      if Ascii.eqb c "/" then Some (EmptyString, rest)
      else match split_slash rest with
           | Some (org, name) => Some (String c org, name)
           | None => None
           end
  end.

(** Modelled from the spec: [utils.js] is not among the sources, and
    the spec describes [extractRepoInfo] only through the repository
    label that parameterizes the tool descriptions.  The source builds
    that label as [org/name] from its result, so this instance splits
    an [org/name] text at its first slash and throws without one. *)
Definition spec_extractRepoInfo (url : string) : Result (string * string) :=
  match split_slash url with
  | Some p => Ok p
  | None => Throw (Error "Invalid repository URL")
  end.

Definition spec_utils : Utils :=
  {| getGraphId := spec_getGraphId; extractRepoInfo := spec_extractRepoInfo |}.

(* ================================================================== *)
(** ** Vocabulary of the statements *)
(* ================================================================== *)

(** The keys of a map are pairwise distinct. *)
Definition distinct_keys (V : Type) (m : JsMap.t V) : Prop := NoDup (map fst m).

(** What every reachable state satisfies: session ids are distinct
    and non-empty, a transport in the table has been constructed, and
    the i-th constructed transport is connected to the i-th server. *)
Definition well_formed (st : Server) : Prop :=
  distinct_keys (transports st)
  /\ (forall sid t, In (sid, t) (transports st) -> sid <> "" /\ t < constructed st)
  /\ map fst (connected st) = seq 0 (constructed st).

(** The API key in force once the request's query parameters have
    been applied. *)
Definition effective_key (st : Server) (req : Request) : option string :=
  CODEGPT_API_KEY (apply_query (query req) (config st)).



Definition not_in_table (t : Transport) (st : Server) : Prop :=
  forall sid, JsMap.get sid (transports st) <> Some t.

(** Whether the event is a request carrying a non-empty value for
    the parameter. *)
Definition carries (param : Query -> option string) (ev : Event) : bool :=
  match ev with
  | Arrives req => truthy (param (query req))
  | _ => false
  end.

(** Each query parameter with the field of [config] it overrides. *)
Definition overrides : list ((Query -> option string) * (Config -> option string)) :=
  [ (config_apiKey, CODEGPT_API_KEY);
    (config_orgId, CODEGPT_ORG_ID);
    (config_graphId, CODEGPT_GRAPH_ID);
    (config_repoUrl, CODEGPT_REPO_URL) ].

(** The condition [registerTools] tests: no graph id, no repository
    URL, no multi-repo mode. *)
Definition unconfigured_target (cfg : Config) : Prop :=
  truthy (CODEGPT_GRAPH_ID cfg) = false
  /\ truthy (CODEGPT_REPO_URL cfg) = false
  /\ IS_MULTI_REPO cfg = false.

Section Reachability.
Context {utils : Utils}.

Definition reachable (st : Server) : Prop :=
  exists cfg evs, steps (startHttpServer cfg) evs = Some st.

End Reachability.

(* ================================================================== *)
(** ** Sample inputs *)
(* ================================================================== *)

(** A configuration and a remote side to run the handlers against. *)
Definition sample_config : Config :=
  mkConfig (Some "sk-test") None (Some "graph-1") None false None.

Definition unconfigured : Config := mkConfig None None None None false None.

Definition answering (payload : Json) : Remote := fun _ => Resolved (Body payload).

Definition unreachable_remote : Remote :=
  fun _ => Rejected (mkError "TypeError" "fetch failed").

(** The tools of a server registered under [sample_config], which fixes
    a graph id: get-code first, find-direct-connections second. *)
Definition sample_get_code : Tool :=
  mkTool "get-code" (Some "") [("name", true); ("path", false)]
         (@get_code spec_utils).

Definition sample_find_direct_connections : Tool :=
  mkTool "find-direct-connections" (Some "") [("name", true); ("path", false)]
         (@find_direct_connections spec_utils).

Definition sample_call (path : string) : HttpCall :=
  mkCall (CODEGPT_API_BASE ++ path) "POST" (post_headers sample_config)
         (JSON_stringify
            (Some (object_literal [("graphId", Some "graph-1"); ("name", Some "Foo")]))).

Definition no_query : Query := mkQuery None None None None.

Definition open_request : Request := mkRequest "POST" no_query None.

Definition keyed_request : Request :=
  mkRequest "POST" (mkQuery (Some "sk-first") None None None) None.

Definition bearing (m sid : string) : Request := mkRequest m no_query (Some sid).

(** The server after one session has been opened and initialized under
    the id [s]. *)
Definition one_session : Server :=
  match @steps spec_utils (startHttpServer sample_config)
          [Arrives open_request; SessionInitialized 0 "s"] with
  | Some st => st
  | None => startHttpServer sample_config
  end.

(* ================================================================== *)
(** ** [startStdioServer] and the entry point *)
(* ================================================================== *)

(** A JavaScript number as [parseInt] yields it: an integer or [NaN]. *)
Inductive JsNumber :=
| NaN
| Num (z : Z).

(** The white space [parseInt] skips, among the characters below 128. *)
Definition is_space (c : ascii) : bool :=
  let n := nat_of_ascii c in
  (n =? 32)%nat || ((9 <=? n)%nat && (n <=? 13)%nat).

Fixpoint trim_start (s : string) : string :=
  match s with
  | EmptyString => EmptyString
  | String c rest => if is_space c then trim_start rest else s
  end.

Definition digit_value (c : ascii) : option Z :=
  let n := nat_of_ascii c in
  if (48 <=? n)%nat && (n <=? 57)%nat then Some (Z.of_nat (n - 48)) else None.

(** The value of the longest prefix of decimal digits, if there is one. *)
Fixpoint leading_digits (acc : option Z) (s : string) : option Z :=
  match s with
  | EmptyString => acc
  | String c rest =>
      match digit_value c with
      | Some d =>
          leading_digits
            (Some (10 * match acc with Some a => a | None => 0 end + d)%Z) rest
      | None => acc
      end
  end.

(** [parseInt(s, 10)]. *)
Definition parseInt (s : string) : JsNumber :=
  let s := trim_start s in
  let signed :=
    match s with
    | String "-" rest => (true, rest)
    | String "+" rest => (false, rest)
    | _ => (false, s)
    end in
  match leading_digits None (snd signed) with
  | Some n => Num (if fst signed then - n else n)%Z
  | None => NaN
  end.

(** [process.env.PORT ? parseInt(process.env.PORT, 10) : null]. *)
Definition PORT (env_PORT : option string) : option JsNumber :=
  if truthy env_PORT then Some (parseInt (template env_PORT)) else None.

(** [PORT !== null]. *)
Definition IS_HTTP_MODE (env_PORT : option string) : bool :=
  match PORT env_PORT with
  | Some _ => true
  | None => false
  end.

(** The lines [startStdioServer] writes with [console.error] before it
    looks at the configuration. *)
Definition debug_info (cfg : Config) : list string :=
  [ "=== DEBUG INFO ===";
    "CODEGPT_API_KEY: " ++ (if truthy (CODEGPT_API_KEY cfg) then "SET" else "NOT SET");
    "CODEGPT_ORG_ID: " ++ (if truthy (CODEGPT_ORG_ID cfg) then "SET" else "NOT SET");
    "CODEGPT_GRAPH_ID: " ++ (if truthy (CODEGPT_GRAPH_ID cfg) then "SET" else "NOT SET");
    "CODEGPT_REPO_URL: " ++ (if truthy (CODEGPT_REPO_URL cfg) then "SET" else "NOT SET");
    "IS_MULTI_REPO: " ++ (if IS_MULTI_REPO cfg then "SET" else "NOT SET");
    "REPO_LIST: " ++ (match REPO_LIST cfg with Some _ => "SET" | None => "NOT" end);
    "==================" ].

Definition stdio_key_error : JsError :=
  Error "CODEGPT_API_KEY is not set. Set it via environment variable or pass as CLI argument.".


Section Entry.
Context {utils : Utils}.

(** What the [catch] around [extractRepoInfo] writes: the message of
    the error, when there is one. *)
Definition repository_errors (cfg : Config) : list string :=
  if truthy (CODEGPT_REPO_URL cfg) && negb (IS_MULTI_REPO cfg) then
    match extractRepoInfo (template (CODEGPT_REPO_URL cfg)) with
    | Ok _ => []
    | Throw e => [err_message e]
    end
  else [].

(** [startStdioServer]: the lines written to the diagnostic stream, and
    the server connected to the stdio transport or the error thrown. *)
Definition startStdioServer (cfg : Config) : list string * Result McpServer :=
  if negb (truthy (CODEGPT_API_KEY cfg)) && negb (truthy (CODEGPT_REPO_URL cfg))
     && negb (IS_MULTI_REPO cfg)
  then (debug_info cfg, Throw stdio_key_error)
  else
    let server := new_McpServer in
    let repository := repository_label cfg in
    ((debug_info cfg ++ repository_errors cfg
        ++ ["CodeGPT Deep Graph MCP Server running on stdio"])%list,
     Ok (registerTools cfg server repository)).


End Entry.

(** Whether a CLI argument is taken for a repository, and whether it is
    taken for the API key, by the two tests of [createServer]. *)
Definition repository_argument (arg : string) : bool :=
  includes "/" arg && negb (startsWith "sk-" arg).

Definition api_key_argument (arg : string) : bool := startsWith "sk-" arg.

(** The transports whose initialization callback fires in a run. *)
Fixpoint initialized_in (evs : list Event) : list Transport :=
  match evs with
  | [] => []
  | SessionInitialized t _ :: rest => t :: initialized_in rest
  | _ :: rest => initialized_in rest
  end.

(** The header of a call, by name. *)
Fixpoint header (name : string) (headers : list (string * option string))
  : option string :=
  match headers with
  | [] => None
  | (k, v) :: rest => if k =? name then v else header name rest
  end.

(** The path of the remote operation behind a tool. *)
Definition tool_endpoint (name : string) : string :=
  if name =? "list-graphs" then CODEGPT_API_BASE ++ "/mcp/graphs"
  else CODEGPT_API_BASE ++ "/mcp/graphs/" ++ name.

(** A configuration in multi-repo mode that also holds a repository URL. *)
Definition multi_config : Config :=
  mkConfig (Some "sk-test") None (Some "graph-1") (Some "acme/widgets") true
           (Some ["acme/widgets"; "acme/gadgets"]).

Definition sample_userConfig : ServerConfig :=
  mkServerConfig "sk-user" None (Some "graph-9") None.

(** An instance whose [getGraphId] refuses a call for which no graph
    id can be resolved, to run the path on which it throws. *)
Definition strict_utils : Utils :=
  {| getGraphId := fun cfg graphId =>
       if truthy (or_else graphId (CODEGPT_GRAPH_ID cfg))
       then Ok (or_else graphId (CODEGPT_GRAPH_ID cfg))
       else Throw (Error "graphId is required");
     extractRepoInfo := spec_extractRepoInfo |}.

(* ================================================================== *)
(** * Properties of the tool handlers *)
(* ================================================================== *)





Section ToolFacts.
Context {utils : Utils}.

Lemma registered_tools (cfg : Config) (repository : string) :
  tools (registerTools cfg new_McpServer repository) =
  (if negb (truthy (CODEGPT_GRAPH_ID cfg)) && negb (truthy (CODEGPT_REPO_URL cfg))
      && negb (IS_MULTI_REPO cfg)
   then list_graphs_tool :: fixed_tools repository
   else fixed_tools repository).
Proof.
  unfold registerTools.
  destruct (negb (truthy (CODEGPT_GRAPH_ID cfg)) && negb (truthy (CODEGPT_REPO_URL cfg))
            && negb (IS_MULTI_REPO cfg)); reflexivity.
Qed.

Lemma registered_cases (cfg : Config) (repository : string) (tool : Tool) :
  In tool (tools (registerTools cfg new_McpServer repository)) ->
  tool = list_graphs_tool \/ In tool (fixed_tools repository).
Proof.
  rewrite registered_tools.
  destruct (_ && _); [intros [<-|H]; auto | auto].
Qed.

End ToolFacts.

Section HandlerTheorems.
Context {utils : Utils}.

Ltac tool_cases H :=
  apply registered_cases in H;
  destruct H as [H | H];
  [ subst
  | cbn [In fixed_tools] in H;
    repeat (destruct H as [H | H]; [subst | ]); [ .. | contradiction ] ].

Ltac unfold_handler :=
  cbn [tool_handler tool_name tool_params list_graphs_tool];
  unfold list_graphs, get_code, find_direct_connections, nodes_semantic_search,
    docs_semantic_search, folder_tree_structure, get_usage_dependency_links,
    run, post, bind, try_catch, fetch, response_json, destructure_content,
    lift, ret, throw.




(** C7.  Each of the tools get-code, find-direct-connections,
    nodes-semantic-search, docs-semantic-search and
    get-usage-dependency-links declares a required parameter, and its
    handler, called with that parameter absent or empty, throws
    [Error("<parameter> is required")] with no call made to the
    remote side. *)
Theorem required_parameter_checked_before_fetch :
  forall (cfg0 : Config) (repository : string) (tool : Tool),
    In tool (tools (registerTools cfg0 new_McpServer repository)) ->
    In (tool_name tool)
       ["get-code"; "find-direct-connections"; "nodes-semantic-search";
        "docs-semantic-search"; "get-usage-dependency-links"] ->
    exists p,
      In (p, true) (tool_params tool) /\
      forall cfg a remote,
        truthy (a p) = false ->
        run (tool_handler tool cfg a) remote
        = ([], Throw (Error (p ++ " is required"))).
Proof.
  intros cfg0 repository tool Hreg Hname.
  tool_cases Hreg; cbn [tool_name In] in Hname;
    try (exfalso; intuition discriminate).
  all: eexists; split; [cbn; left; reflexivity|];
    intros cfg a remote Hp; unfold_handler; rewrite Hp; reflexivity.
Qed.



End HandlerTheorems.

Lemma required_parameter_checked_before_fetch_witness :
  exists p,
    In (p, true) (tool_params sample_get_code) /\
    run (tool_handler sample_get_code sample_config no_args) unreachable_remote
    = ([], Throw (Error (p ++ " is required"))).
Proof.
  destruct (@required_parameter_checked_before_fetch spec_utils sample_config ""
              sample_get_code) as [p [Hp Hthrows]].
  - simpl. left. reflexivity.
  - simpl. left. reflexivity.
  - exists p. split; [exact Hp | apply Hthrows; reflexivity].
Defined.




(** The scenario of the specification: get-code called with
    [{ name: "Foo" }] under a fixed graph id sends the graph id and the
    name, and neither a path nor a repository URL. *)
Example get_code_request :
  fst (run (@get_code spec_utils sample_config (with_arg "name" "Foo" no_args))
           (answering (JObj [("content", JStr "class Foo {}")])))
  = [sample_call "/mcp/graphs/get-code"]
  /\ call_body (sample_call "/mcp/graphs/get-code")
     = Some ("{" ++ dquote ++ "graphId" ++ dquote ++ ":" ++ dquote ++ "graph-1" ++ dquote
             ++ "," ++ dquote ++ "name" ++ dquote ++ ":" ++ dquote ++ "Foo" ++ dquote ++ "}").
Proof. split; reflexivity. Qed.

(* ================================================================== *)
(** * Properties of the session table *)
(* ================================================================== *)

Section JsMapFacts.
Variable V : Type.
Implicit Types (m : JsMap.t V) (k : string) (v : V).



Lemma get_delete_same k m : JsMap.get k (JsMap.delete k m) = None.
Proof.
  induction m as [|[k' v'] m IH]; cbn; auto.
  destruct (k' =? k) eqn:E; cbn; [|rewrite E]; auto.
Qed.

Lemma get_delete_other k k' m :
  k <> k' -> JsMap.get k' (JsMap.delete k m) = JsMap.get k' m.
Proof.
  intros Hne. induction m as [|[k0 v0] m IH]; cbn; auto.
  destruct (String.eqb_spec k0 k); cbn.
  - subst. destruct (String.eqb_spec k k'); [contradiction | auto].
  - now rewrite IH.
Qed.

Lemma get_In k v m : JsMap.get k m = Some v -> In (k, v) m.
Proof.
  induction m as [|[k' v'] m IH]; cbn; [discriminate|].
  destruct (String.eqb_spec k' k); intros H.
  - injection H as ->. subst. now left.
  - right. auto.
Qed.

Lemma In_set k v k0 v0 m :
  In (k, v) (JsMap.set k0 v0 m) -> (k = k0 /\ v = v0) \/ In (k, v) m.
Proof.
  induction m as [|[k' v'] m IH]; cbn.
  - intros [H|[]]. injection H as <- <-. auto.
  - destruct (String.eqb_spec k' k0); cbn.
    + intros [H|H]; [injection H as <- <-; subst; auto | auto].
    + intros [H|H]; [auto | destruct (IH H); auto].
Qed.

Lemma In_delete e k0 m : In e (JsMap.delete k0 m) -> In e m.
Proof.
  induction m as [|[k' v'] m IH]; cbn; auto.
  destruct (k' =? k0); cbn; intuition.
Qed.

Lemma has_true k m : JsMap.has k m = true <-> exists v, JsMap.get k m = Some v.
Proof.
  unfold JsMap.has. destruct (JsMap.get k m).
  - split; eauto.
  - split; [discriminate | intros [v H]; discriminate].
Qed.

Lemma keys_set k v m k' :
  In k' (map fst (JsMap.set k v m)) -> k' = k \/ In k' (map fst m).
Proof.
  induction m as [|[k0 v0] m IH]; cbn.
  - intuition.
  - destruct (k0 =? k); cbn; intuition.
Qed.

Lemma keys_delete k m k' :
  In k' (map fst (JsMap.delete k m)) -> In k' (map fst m).
Proof.
  induction m as [|[k0 v0] m IH]; cbn; auto.
  destruct (k0 =? k); cbn; intuition.
Qed.

Lemma distinct_set k v m : distinct_keys m -> distinct_keys (JsMap.set k v m).
Proof.
  unfold distinct_keys.
  induction m as [|[k0 v0] m IH]; cbn; intros Hnd.
  - constructor; [intros [] | constructor].
  - inversion Hnd as [|? ? Hnotin Hrest]; subst.
    destruct (String.eqb_spec k0 k); cbn.
    + constructor; assumption.
    + constructor; [|auto].
      intros Hin. apply keys_set in Hin. destruct Hin; [congruence | contradiction].
Qed.

Lemma distinct_delete k m : distinct_keys m -> distinct_keys (JsMap.delete k m).
Proof.
  unfold distinct_keys.
  induction m as [|[k0 v0] m IH]; cbn; intros Hnd; auto.
  inversion Hnd as [|? ? Hnotin Hrest]; subst.
  destruct (k0 =? k); cbn; auto.
  constructor; [|auto].
  intros Hin. apply keys_delete in Hin. contradiction.
Qed.

Lemma In_get k v m : distinct_keys m -> In (k, v) m -> JsMap.get k m = Some v.
Proof.
  unfold distinct_keys.
  induction m as [|[k0 v0] m IH]; cbn; intros Hnd Hin; [contradiction|].
  inversion Hnd as [|? ? Hnotin Hrest]; subst.
  destruct Hin as [H|H].
  - injection H as -> ->. now rewrite String.eqb_refl.
  - destruct (String.eqb_spec k0 k); [|auto].
    subst. exfalso. apply Hnotin. apply (in_map fst) in H. exact H.
Qed.

End JsMapFacts.

Section HttpInvariants.
Context {utils : Utils}.

Lemma session_transport_Some sessionId m t :
  session_transport sessionId m = Some t <->
  exists s, sessionId = Some s /\ s <> "" /\ JsMap.get s m = Some t.
Proof.
  unfold session_transport, JsMap.has. destruct sessionId as [s|]; cbn.
  - destruct (String.eqb_spec s ""); cbn.
    + split; [discriminate | intros (s' & [= <-] & Hne & _); contradiction].
    + destruct (JsMap.get s m) as [t'|] eqn:E.
      * split; [intros [= <-]; eauto | intros (s' & [= <-] & _ & H); congruence].
      * split; [discriminate | intros (s' & [= <-] & _ & H); congruence].
  - split; [discriminate | intros (s' & H & _); discriminate].
Qed.

Lemma session_transport_unknown sessionId m :
  (forall s, sessionId = Some s -> JsMap.get s m = None) ->
  session_transport sessionId m = None.
Proof.
  intros H. destruct (session_transport sessionId m) as [t|] eqn:E; [|reflexivity].
  apply session_transport_Some in E. destruct E as (s & Hs & _ & Hget).
  rewrite (H s Hs) in Hget. discriminate.
Qed.

(** The handler itself never writes to the table before it yields. *)
Lemma endpoint_keeps_table st req :
  transports (fst (mcp_endpoint st req)) = transports st.
Proof.
  unfold mcp_endpoint. cbn.
  repeat match goal with
         | |- context [if ?b then _ else _] => destruct b
         | |- context [match session_transport ?s ?m with _ => _ end] =>
             destruct (session_transport s m)
         end; reflexivity.
Qed.

Lemma endpoint_config st req :
  config (fst (mcp_endpoint st req)) = apply_query (query req) (config st).
Proof.
  unfold mcp_endpoint. cbn.
  repeat match goal with
         | |- context [if ?b then _ else _] => destruct b
         | |- context [match session_transport ?s ?m with _ => _ end] =>
             destruct (session_transport s m)
         end; reflexivity.
Qed.

(** It constructs at most one transport, connected to a new server. *)
Lemma endpoint_constructs st req :
  (constructed (fst (mcp_endpoint st req)) = constructed st
   /\ connected (fst (mcp_endpoint st req)) = connected st)
  \/ (exists srv,
         snd (mcp_endpoint st req) = Opened (constructed st)
         /\ constructed (fst (mcp_endpoint st req)) = S (constructed st)
         /\ connected (fst (mcp_endpoint st req))
            = (connected st ++ [(constructed st, srv)])%list).
Proof.
  unfold mcp_endpoint. cbn.
  repeat match goal with
         | |- context [if ?b then _ else _] => destruct b
         | |- context [match session_transport ?s ?m with _ => _ end] =>
             destruct (session_transport s m)
         end; cbn; auto.
  right. eexists. repeat split.
Qed.

Lemma start_well_formed cfg : well_formed (startHttpServer cfg).
Proof.
  repeat split; cbn; try constructor; contradiction.
Qed.

Lemma delete_well_formed st sid :
  well_formed st ->
  well_formed (set_transports (JsMap.delete sid (transports st)) st).
Proof.
  intros (Hkeys & Hin & Hconn). split; [|split]; cbn.
  - now apply distinct_delete.
  - intros k v Hkv. apply In_delete in Hkv. auto.
  - exact Hconn.
Qed.

Lemma step_well_formed st ev st' :
  well_formed st -> step st ev = Some st' -> well_formed st'.
Proof.
  intros Hwf Hstep.
  destruct ev as [req | t sid | t | h outcome]; cbn [step] in Hstep.
  - injection Hstep as <-. destruct Hwf as (Hkeys & Hin & Hconn).
    unfold well_formed. rewrite endpoint_keeps_table.
    destruct (endpoint_constructs st req) as [[-> ->] | (srv & _ & -> & ->)].
    + auto.
    + split; [|split]; auto.
      * intros k v Hkv. apply Hin in Hkv. split; [tauto | lia].
      * rewrite map_app, Hconn, seq_S. reflexivity.
  - destruct (t <? constructed st)%nat eqn:Hlt; cbn in Hstep; [|discriminate Hstep].
    apply Nat.ltb_lt in Hlt. unfold minted in Hstep.
    destruct (sid =? "") eqn:Hsid; cbn in Hstep; [discriminate Hstep|].
    apply String.eqb_neq in Hsid.
    injection Hstep as <-. destruct Hwf as (Hkeys & Hin & Hconn).
    split; [|split]; cbn.
    + now apply distinct_set.
    + intros k v Hkv. apply In_set in Hkv.
      destruct Hkv as [[-> ->]|Hkv]; [auto | apply Hin in Hkv; tauto].
    + exact Hconn.
  - destruct (t <? constructed st)%nat; [|discriminate Hstep].
    injection Hstep as <-. unfold onclose.
    destruct (find _ _) as [[sid t']|]; [|exact Hwf].
    destruct (truthy (Some sid)); [|exact Hwf].
    now apply delete_well_formed.
  - injection Hstep as <-.
    destruct h, outcome; cbn [resume]; try exact Hwf.
    now apply delete_well_formed.
Qed.

Lemma steps_well_formed evs : forall st st',
  well_formed st -> steps st evs = Some st' -> well_formed st'.
Proof.
  induction evs as [|ev evs IH]; cbn; intros st st' Hwf Hrun.
  - now injection Hrun as <-.
  - destruct (step st ev) as [st1|] eqn:E; [|discriminate].
    eauto using step_well_formed.
Qed.

Lemma reachable_well_formed st : reachable st -> well_formed st.
Proof.
  intros (cfg & evs & Hrun).
  eapply steps_well_formed; [apply start_well_formed | exact Hrun].
Qed.

Lemma steps_app evs1 : forall evs2 st st1 st2,
  steps st evs1 = Some st1 -> steps st1 evs2 = Some st2 ->
  steps st (evs1 ++ evs2)%list = Some st2.
Proof.
  induction evs1 as [|ev evs1 IH]; cbn; intros evs2 st st1 st2 H1 H2.
  - now injection H1 as ->.
  - destruct (step st ev); [eauto | discriminate].
Qed.

Lemma reachable_steps st evs st' :
  reachable st -> steps st evs = Some st' -> reachable st'.
Proof.
  intros (cfg & evs0 & Hrun) Hmore.
  exists cfg, (evs0 ++ evs)%list. eapply steps_app; eauto.
Qed.

End HttpInvariants.

Section SessionTheorems.
Context {utils : Utils}.


(** With a key, a GET, POST or DELETE bearing an id the table maps to
    [t] is handed to [t], and nothing is constructed. *)
Lemma endpoint_known_session st req sid t :
  In (method req) ["GET"; "POST"; "DELETE"] ->
  truthy (effective_key st req) = true ->
  mcp_session_id req = Some sid ->
  sid <> "" ->
  JsMap.get sid (transports st) = Some t ->
  mcp_endpoint st req
  = (set_config (apply_query (query req) (config st)) st,
     if method req =? "DELETE" then Deleting t sid else Delegated t).
Proof.
  intros Hm Hkey Hsid Hne Hget.
  assert (Hst : session_transport (mcp_session_id req) (transports st) = Some t)
    by (apply session_transport_Some; eauto).
  unfold effective_key in Hkey. unfold mcp_endpoint. cbn. rewrite Hkey, Hst, Hsid. cbn.
  destruct Hm as [<-|[<-|[<-|[]]]]; reflexivity.
Qed.

Lemma endpoint_unknown_session st req :
  truthy (effective_key st req) = true ->
  (forall s, mcp_session_id req = Some s -> JsMap.get s (transports st) = None) ->
  mcp_endpoint st req
  = if method req =? "GET" then
      (set_config (apply_query (query req) (config st)) st,
       Replied 400 "Invalid or missing session ID")
    else if method req =? "POST" then
      (mkServer (apply_query (query req) (config st)) (transports st)
                (S (constructed st))
                (connected st
                 ++ [(constructed st,
                      registerTools (apply_query (query req) (config st))
                        new_McpServer
                        (repository_label (apply_query (query req) (config st))))])%list,
       Opened (constructed st))
    else if method req =? "DELETE" then
      (set_config (apply_query (query req) (config st)) st,
       Replied 400 "Invalid or missing session ID")
    else (set_config (apply_query (query req) (config st)) st,
          Replied 405 "Method not allowed").
Proof.
  intros Hkey Hunknown. apply session_transport_unknown in Hunknown.
  unfold effective_key in Hkey. unfold mcp_endpoint. cbn. rewrite Hkey, Hunknown. cbn.
  reflexivity.
Qed.


(** C4.  With an API key in force, a GET or a DELETE whose session id
    is missing or is not a key of the table is answered 400 "Invalid
    or missing session ID"; the table is unchanged, nothing is
    constructed or connected, and nothing is left to run afterwards. *)
Theorem unknown_session_rejected :
  forall st req,
    method req = "GET" \/ method req = "DELETE" ->
    truthy (effective_key st req) = true ->
    (forall s, mcp_session_id req = Some s -> JsMap.get s (transports st) = None) ->
    snd (mcp_endpoint st req) = Replied 400 "Invalid or missing session ID"
    /\ transports (fst (mcp_endpoint st req)) = transports st
    /\ constructed (fst (mcp_endpoint st req)) = constructed st
    /\ connected (fst (mcp_endpoint st req)) = connected st
    /\ forall outcome st', resume (snd (mcp_endpoint st req)) outcome st' = st'.
Proof.
  intros st req Hm Hkey Hunknown.
  rewrite (endpoint_unknown_session _ _ Hkey Hunknown).
  destruct Hm as [-> | ->]; cbn; repeat split.
Qed.

(** C3, as amended.  A DELETE bearing an id the table maps to [t] is
    delegated to [t] with the table untouched; when the delegation
    returns, the entry for the id is removed from the table as it then
    stands; when the delegation throws, the handler stops and removes
    nothing. *)
Theorem delete_removes_entry_when_delegation_returns :
  forall st req sid t,
    reachable st ->
    method req = "DELETE" ->
    truthy (effective_key st req) = true ->
    mcp_session_id req = Some sid ->
    JsMap.get sid (transports st) = Some t ->
    snd (mcp_endpoint st req) = Deleting t sid
    /\ transports (fst (mcp_endpoint st req)) = transports st
    /\ (forall st',
           JsMap.get sid (transports (resume (Deleting t sid) Fulfilled st')) = None)
    /\ (forall e st', resume (Deleting t sid) (Failed e) st' = st').
Proof.
  intros st req sid t Hreach Hm Hkey Hsid Hget.
  assert (Hne : sid <> "").
  { destruct (reachable_well_formed Hreach) as (_ & Hin & _).
    apply get_In in Hget. apply Hin in Hget. tauto. }
  rewrite (@endpoint_known_session st req sid t); auto.
  - rewrite Hm. cbn. repeat split. intros st'. apply get_delete_same.
  - rewrite Hm. cbn. auto.
Qed.

End SessionTheorems.

Section SessionLifetime.
Context {utils : Utils}.









End SessionLifetime.

Section NewSession.
Context {utils : Utils}.


End NewSession.

Lemma one_session_reachable : @reachable spec_utils one_session.
Proof.
  exists sample_config, [Arrives open_request; SessionInitialized 0 "s"].
  reflexivity.
Defined.

Lemma start_reachable : @reachable spec_utils (startHttpServer sample_config).
Proof. exists sample_config, []. reflexivity. Defined.


(** C3 fails as stated: when the delegated DELETE throws, the entry is
    still in the table after the handler has ended. *)
Lemma failed_delegation_keeps_entry :
  snd (@mcp_endpoint spec_utils one_session (bearing "DELETE" "s")) = Deleting 0 "s"
  /\ exists st,
       @steps spec_utils one_session
         [Arrives (bearing "DELETE" "s");
          Settles (Deleting 0 "s") (Failed (Error "write after end"))] = Some st
       /\ JsMap.get "s" (transports st) = Some 0.
Proof.
  split; [reflexivity|]. eexists. split; reflexivity.
Qed.


Lemma unknown_session_rejected_witness :
  snd (@mcp_endpoint spec_utils one_session (bearing "GET" "other"))
  = Replied 400 "Invalid or missing session ID".
Proof.
  refine (proj1 (@unknown_session_rejected spec_utils one_session
                   (bearing "GET" "other") (or_introl eq_refl) eq_refl _)).
  intros s H. injection H as <-. reflexivity.
Defined.

Lemma delete_removes_entry_when_delegation_returns_witness :
  snd (@mcp_endpoint spec_utils one_session (bearing "DELETE" "s")) = Deleting 0 "s".
Proof.
  exact (proj1 (@delete_removes_entry_when_delegation_returns spec_utils one_session
                  (bearing "DELETE" "s") "s" 0
                  one_session_reachable eq_refl eq_refl eq_refl eq_refl)).
Defined.


(* ================================================================== *)
(** * Query-parameter overrides *)
(* ================================================================== *)

Lemma apply_query_field param field q cfg :
  In (param, field) overrides ->
  field (apply_query q cfg) = if truthy (param q) then param q else field cfg.
Proof.
  intros Hin. cbn in Hin.
  repeat (destruct Hin as [[= <- <-] | Hin]); try contradiction;
    unfold apply_query;
    destruct (truthy (config_apiKey q)), (truthy (config_orgId q)),
      (truthy (config_graphId q)), (truthy (config_repoUrl q));
    reflexivity.
Qed.

Section Overrides.
Context {utils : Utils}.

Lemma step_config st ev st' :
  step st ev = Some st' ->
  config st' = match ev with
               | Arrives req => apply_query (query req) (config st)
               | _ => config st
               end.
Proof.
  intros Hstep.
  destruct ev as [req | t sid | t | h outcome]; cbn [step] in Hstep.
  - injection Hstep as <-. apply endpoint_config.
  - destruct (_ && _); [injection Hstep as <-; reflexivity | discriminate Hstep].
  - destruct (_ <? _)%nat; [|discriminate Hstep].
    injection Hstep as <-. unfold onclose.
    destruct (find _ _) as [[k v]|]; [destruct (truthy _)|]; reflexivity.
  - injection Hstep as <-. destruct h, outcome; reflexivity.
Qed.

Lemma field_kept param field evs : forall st st',
  In (param, field) overrides ->
  steps st evs = Some st' ->
  forallb (fun ev => negb (carries param ev)) evs = true ->
  field (config st') = field (config st).
Proof.
  induction evs as [|ev evs IH]; cbn; intros st st' Hin Hrun Hnone.
  - now injection Hrun as <-.
  - destruct (step st ev) as [st1|] eqn:Hstep; [|discriminate Hrun].
    apply andb_true_iff in Hnone. destruct Hnone as [Hev Hrest].
    apply negb_true_iff in Hev.
    rewrite (IH st1 st' Hin Hrun Hrest), (@step_config st ev st1 Hstep).
    destruct ev as [req | | | ]; try reflexivity.
    cbn in Hev. now rewrite (@apply_query_field param field _ _ Hin), Hev.
Qed.

Lemma endpoint_with_key st req :
  truthy (effective_key st req) = true ->
  snd (mcp_endpoint st req) <> Replied 400 api_key_required.
Proof.
  unfold effective_key, mcp_endpoint. cbn. intros ->. cbn.
  destruct (session_transport _ _);
    repeat (destruct (_ =? _); cbn; try discriminate).
Qed.

(** C10.  On every request, each of the four query parameters
    replaces its field of [config] when it is a non-empty string and
    leaves the field alone when it is absent or empty; the value it
    set is still in force after any run of events in which no request
    carries a non-empty value for that parameter; and a request
    without [config.apiKey] that comes after such a run behind a
    request that set the key has that key in force and is not stopped
    by the API-key check. *)
Theorem query_overrides_persist :
  (forall param field,
      In (param, field) overrides ->
      forall st req,
        field (config (fst (mcp_endpoint st req)))
        = (if truthy (param (query req)) then param (query req)
           else field (config st))
        /\ forall evs st',
             truthy (param (query req)) = true ->
             steps (fst (mcp_endpoint st req)) evs = Some st' ->
             forallb (fun ev => negb (carries param ev)) evs = true ->
             field (config st') = param (query req))
  /\ (forall st req evs st' req',
         truthy (config_apiKey (query req)) = true ->
         steps (fst (mcp_endpoint st req)) evs = Some st' ->
         forallb (fun ev => negb (carries config_apiKey ev)) evs = true ->
         truthy (config_apiKey (query req')) = false ->
         effective_key st' req' = config_apiKey (query req)
         /\ snd (mcp_endpoint st' req') <> Replied 400 api_key_required).
Proof.
  assert (Happlied : forall param field st req,
             In (param, field) overrides ->
             field (config (fst (mcp_endpoint st req)))
             = (if truthy (param (query req)) then param (query req)
                else field (config st))).
  { intros param field st req Hin.
    rewrite endpoint_config. now apply apply_query_field. }
  assert (Hkept : forall param field st req evs st',
             In (param, field) overrides ->
             truthy (param (query req)) = true ->
             steps (fst (mcp_endpoint st req)) evs = Some st' ->
             forallb (fun ev => negb (carries param ev)) evs = true ->
             field (config st') = param (query req)).
  { intros param field st req evs st' Hin Hset Hrun Hnone.
    rewrite (@field_kept param field evs _ _ Hin Hrun Hnone), (Happlied _ _ _ _ Hin).
    now rewrite Hset. }
  split.
  - intros param field Hin st req. split; [now apply Happlied|].
    intros evs st'. now apply Hkept.
  - intros st req evs st' req' Hset Hrun Hnone Hlater.
    assert (Hkey : effective_key st' req' = config_apiKey (query req)).
    { unfold effective_key.
      rewrite (@apply_query_field config_apiKey CODEGPT_API_KEY); [|cbn; auto].
      rewrite Hlater.
      apply (Hkept config_apiKey CODEGPT_API_KEY st req evs st'); cbn; auto. }
    split; [exact Hkey|].
    apply endpoint_with_key. now rewrite Hkey.
Qed.

End Overrides.

Lemma query_overrides_persist_witness :
  exists st,
    @steps spec_utils
      (fst (@mcp_endpoint spec_utils (startHttpServer unconfigured) keyed_request))
      [SessionInitialized 0 "s"; Arrives (bearing "GET" "s")] = Some st
    /\ effective_key st (bearing "GET" "s") = Some "sk-first"
    /\ snd (@mcp_endpoint spec_utils st (bearing "GET" "s"))
       <> Replied 400 api_key_required.
Proof.
  eexists. split; [reflexivity|].
  exact (proj2 (@query_overrides_persist spec_utils)
           (startHttpServer unconfigured) keyed_request
           [SessionInitialized 0 "s"; Arrives (bearing "GET" "s")] _
           (bearing "GET" "s") eq_refl eq_refl eq_refl eq_refl).
Defined.

(* ================================================================== *)
(** * Registration of list-graphs, and the CLI arguments *)
(* ================================================================== *)

Section Availability.
Context {utils : Utils}.

Lemma list_graphs_registered cfg repository :
  has_tool "list-graphs" (registerTools cfg new_McpServer repository) = true
  <-> unconfigured_target cfg.
Proof.
  unfold has_tool, unconfigured_target. rewrite registered_tools.
  destruct (truthy (CODEGPT_GRAPH_ID cfg)), (truthy (CODEGPT_REPO_URL cfg)),
    (IS_MULTI_REPO cfg); cbn; intuition discriminate.
Qed.

Lemma endpoint_opened st req t :
  snd (mcp_endpoint st req) = Opened t ->
  t = constructed st
  /\ connected (fst (mcp_endpoint st req))
     = (connected st
        ++ [(t, registerTools (config (fst (mcp_endpoint st req))) new_McpServer
                  (repository_label (config (fst (mcp_endpoint st req)))))])%list.
Proof.
  unfold mcp_endpoint. cbn.
  destruct (truthy _); cbn; [|discriminate].
  destruct (session_transport _ _);
    repeat (destruct (_ =? _); cbn; try discriminate).
  intros [= <-]. split; reflexivity.
Qed.

Lemma step_connected st ev st' :
  step st ev = Some st' -> exists more, connected st' = (connected st ++ more)%list.
Proof.
  intros Hstep.
  destruct ev as [req | t sid | t | h outcome]; cbn [step] in Hstep.
  - injection Hstep as <-.
    destruct (endpoint_constructs st req) as [[_ ->] | (srv & _ & _ & ->)];
      [exists []; now rewrite app_nil_r | eauto].
  - destruct (_ && _); [|discriminate Hstep].
    injection Hstep as <-. exists []. now rewrite app_nil_r.
  - destruct (_ <? _)%nat; [|discriminate Hstep].
    injection Hstep as <-. exists []. rewrite app_nil_r. unfold onclose.
    destruct (find _ _) as [[k v]|]; [destruct (truthy _)|]; reflexivity.
  - injection Hstep as <-. exists []. rewrite app_nil_r.
    destruct h, outcome; reflexivity.
Qed.

Lemma steps_connected evs : forall st st',
  steps st evs = Some st' -> exists more, connected st' = (connected st ++ more)%list.
Proof.
  induction evs as [|ev evs IH]; cbn; intros st st' Hrun.
  - injection Hrun as <-. exists []. now rewrite app_nil_r.
  - destruct (step st ev) as [st1|] eqn:Hstep; [|discriminate Hrun].
    apply step_connected in Hstep. destruct Hstep as [more1 Hmore1].
    apply IH in Hrun. destruct Hrun as [more2 Hmore2].
    exists (more1 ++ more2)%list. now rewrite Hmore2, Hmore1, app_assoc.
Qed.

(** C8.  On a new server, [registerTools] registers list-graphs
    exactly when the configuration it reads has no graph id, no
    repository URL and no multi-repo mode.  The test is made once: the
    server connected to a session's transport keeps the tool set it
    was given under the configuration of the request that opened the
    session, whatever later requests do to the configuration. *)
Theorem list_graphs_registered_iff_unconfigured :
  (forall cfg repository,
      has_tool "list-graphs" (registerTools cfg new_McpServer repository) = true
      <-> unconfigured_target cfg)
  /\ (forall st req t,
         reachable st ->
         snd (mcp_endpoint st req) = Opened t ->
         forall evs st',
           steps (fst (mcp_endpoint st req)) evs = Some st' ->
           exists mcpServer,
             nth_error (connected st') t = Some (t, mcpServer)
             /\ (has_tool "list-graphs" mcpServer = true
                 <-> unconfigured_target (apply_query (query req) (config st)))).
Proof.
  split; [apply list_graphs_registered|].
  intros st req t Hreach Hopened evs st' Hrun.
  destruct (endpoint_opened _ _ Hopened) as [Ht Hconn].
  destruct (reachable_well_formed Hreach) as (_ & _ & Hseq).
  assert (Hlen : length (connected st) = t).
  { rewrite Ht, <- (length_map fst (connected st)), Hseq. apply length_seq. }
  apply steps_connected in Hrun. destruct Hrun as [more Hmore].
  eexists. split.
  - rewrite Hmore, Hconn, <- app_assoc, nth_error_app2; [|lia].
    rewrite Hlen, Nat.sub_diag. reflexivity.
  - rewrite endpoint_config. apply list_graphs_registered.
Qed.


End Availability.



Lemma list_graphs_registered_iff_unconfigured_witness :
  exists mcpServer,
    nth_error (connected one_session) 0 = Some (0, mcpServer)
    /\ (has_tool "list-graphs" mcpServer = true
        <-> unconfigured_target
              (apply_query (query open_request) (config (startHttpServer sample_config)))).
Proof.
  exact (proj2 (@list_graphs_registered_iff_unconfigured spec_utils)
           (startHttpServer sample_config) open_request 0
           start_reachable eq_refl [SessionInitialized 0 "s"] one_session eq_refl).
Defined.


(** The scenario of the specification, run on the model: a POST
    without session header opens transport 0; once initialized under
    [s], a POST bearing [s] goes to transport 0; a DELETE bearing [s]
    goes to it too and, when it returns, the id is refused.  The close
    callback of the transport has the same effect on the table. *)
Example session_scenario :
  snd (@mcp_endpoint spec_utils (startHttpServer sample_config) open_request) = Opened 0
  /\ snd (@mcp_endpoint spec_utils one_session (bearing "POST" "s")) = Delegated 0
  /\ snd (@mcp_endpoint spec_utils one_session (bearing "DELETE" "s")) = Deleting 0 "s"
  /\ option_map transports
       (@steps spec_utils one_session
          [Arrives (bearing "DELETE" "s"); Settles (Deleting 0 "s") Fulfilled])
     = Some JsMap.empty
  /\ option_map transports (@steps spec_utils one_session [Closes 0]) = Some JsMap.empty
  /\ snd (@mcp_endpoint spec_utils
            (set_transports JsMap.empty one_session) (bearing "GET" "s"))
     = Replied 400 "Invalid or missing session ID".
Proof. repeat split. Qed.

(* ================================================================== *)
(** * Further properties of the tool handlers *)
(* ================================================================== *)

Section HandlerRuns.
Context {utils : Utils}.

Ltac each_tool H :=
  apply registered_cases in H;
  destruct H as [H | H];
  [ subst
  | cbn [In fixed_tools] in H;
    repeat (destruct H as [H | H]; [subst | ]); [ .. | contradiction ] ].

(** Unfolds the handler and splits its run at the guard, at
    [getGraphId], at the reply of the remote side and at the payload. *)
Ltac each_run Hreq Hgraph Hreply :=
  cbn [tool_handler tool_name tool_params list_graphs_tool];
  unfold list_graphs, get_code, find_direct_connections, nodes_semantic_search,
    docs_semantic_search, folder_tree_structure, get_usage_dependency_links,
    run, post, bind, try_catch, fetch, response_json, destructure_content,
    lift, ret, throw;
  try (destruct (truthy (_ _)) eqn:Hreq; cbn [negb fst snd]);
  try (match goal with
       | |- context [getGraphId ?cfg ?g] => destruct (getGraphId cfg g) eqn:Hgraph
       end; cbn [fst snd]);
  try (match goal with
       | r : Remote |- _ =>
           match goal with
           | |- context [r ?call] =>
               let e := fresh "e" in
               let p := fresh "p" in
               destruct (r call) as [e | [p | e]] eqn:Hreply;
               cbn [fst snd app];
               try (destruct p; cbn [fst snd])
           end
       end);
  cbn [fst snd app].

(** X1.  A handler throws in two ways only, both before any call to
    the remote side: a required parameter is absent or empty, or the
    parameters are there and [getGraphId] threw, in which case its error
    is passed on as it is. *)
Theorem handler_throws_only_before_fetch :
  forall (cfg0 : Config) (repository : string) (tool : Tool),
    In tool (tools (registerTools cfg0 new_McpServer repository)) ->
    forall cfg a remote e,
      snd (run (tool_handler tool cfg a) remote) = Throw e ->
      fst (run (tool_handler tool cfg a) remote) = []
      /\ ((exists p, In (p, true) (tool_params tool)
                     /\ truthy (a p) = false
                     /\ e = Error (p ++ " is required"))
          \/ ((forall p, In (p, true) (tool_params tool) -> truthy (a p) = true)
              /\ getGraphId cfg (a "graphId") = Throw e)).
Proof.
  intros cfg0 repository tool Hreg cfg a remote e.
  each_tool Hreg; each_run Hreq Hgraph Hreply.
  all: intros H; try discriminate H.
  all: injection H as <-; split; [reflexivity|].
  all: first
         [ left; eexists; split; [cbn; left; reflexivity|];
           split; [eassumption | reflexivity]
         | right; split; [|reflexivity];
           intros p Hp; cbn in Hp;
           repeat (destruct Hp as [Hp | Hp];
                   [try discriminate Hp; injection Hp as <-; assumption|]);
           contradiction ].
Qed.

(** X2.  A handler that returns has made exactly one call, and what
    it returns is an envelope with a single item of type "text". *)
Theorem envelope_after_exactly_one_call :
  forall (cfg0 : Config) (repository : string) (tool : Tool),
    In tool (tools (registerTools cfg0 new_McpServer repository)) ->
    forall cfg a remote envelope,
      snd (run (tool_handler tool cfg a) remote) = Ok envelope ->
      exists c t,
        fst (run (tool_handler tool cfg a) remote) = [c]
        /\ envelope = mkEnvelope [mkContent "text" t].
Proof.
  intros cfg0 repository tool Hreg cfg a remote envelope.
  each_tool Hreg; each_run Hreq Hgraph Hreply.
  all: intros H; try discriminate H.
  all: injection H as <-.
  all: eexists; eexists; split; reflexivity.
Qed.

(** X3.  Every call a handler makes goes to the operation named after
    its tool under the API base, as a GET without body for list-graphs
    and as a POST with a body for the others, and carries the configured
    key as a bearer token (the text "undefined" when no key is set) and
    the configured organisation id. *)
Theorem call_addresses_tool_endpoint :
  forall (cfg0 : Config) (repository : string) (tool : Tool),
    In tool (tools (registerTools cfg0 new_McpServer repository)) ->
    forall cfg a remote c,
      In c (fst (run (tool_handler tool cfg a) remote)) ->
      call_url c = tool_endpoint (tool_name tool)
      /\ call_method c = (if tool_name tool =? "list-graphs" then "GET" else "POST")
      /\ header "authorization" (call_headers c)
         = Some ("Bearer " ++ template (CODEGPT_API_KEY cfg))
      /\ header "CodeGPT-Org-Id" (call_headers c) = CODEGPT_ORG_ID cfg
      /\ header "content-type" (call_headers c)
         = (if tool_name tool =? "list-graphs" then None else Some "application/json")
      /\ (call_body c = None <-> tool_name tool = "list-graphs").
Proof.
  intros cfg0 repository tool Hreg cfg a remote c.
  each_tool Hreg; each_run Hreq Hgraph Hreply.
  all: intros Hin; cbn [In] in Hin; try contradiction.
  all: destruct Hin as [<- | []]; cbn.
  all: repeat split; try reflexivity; try discriminate; intros H; discriminate H.
Qed.

End HandlerRuns.

Lemma handler_throws_only_before_fetch_witness :
  fst (run (tool_handler sample_get_code sample_config no_args) unreachable_remote) = [].
Proof.
  exact (proj1 (@handler_throws_only_before_fetch spec_utils sample_config ""
                  sample_get_code ltac:(simpl; left; reflexivity)
                  sample_config no_args unreachable_remote
                  (Error "name is required") eq_refl)).
Defined.

Lemma envelope_after_exactly_one_call_witness :
  exists c t,
    fst (run (tool_handler sample_find_direct_connections sample_config
                           (with_arg "name" "Foo" no_args)) unreachable_remote) = [c]
    /\ text_result (JStr "TypeError: fetch failed") = mkEnvelope [mkContent "text" t].
Proof.
  exact (@envelope_after_exactly_one_call spec_utils sample_config ""
           sample_find_direct_connections ltac:(simpl; right; left; reflexivity)
           sample_config (with_arg "name" "Foo" no_args) unreachable_remote
           (text_result (JStr "TypeError: fetch failed")) eq_refl).
Defined.

Lemma call_addresses_tool_endpoint_witness :
  call_url (sample_call "/mcp/graphs/find-direct-connections")
  = tool_endpoint "find-direct-connections".
Proof.
  exact (proj1 (@call_addresses_tool_endpoint spec_utils sample_config ""
                  sample_find_direct_connections ltac:(simpl; right; left; reflexivity)
                  sample_config (with_arg "name" "Foo" no_args) unreachable_remote
                  (sample_call "/mcp/graphs/find-direct-connections")
                  (or_introl eq_refl))).
Defined.

Section HandlerInputs.
Context {utils : Utils}.

Ltac each_handler H :=
  apply registered_cases in H;
  destruct H as [H | H];
  [ subst
  | cbn [In fixed_tools] in H;
    repeat (destruct H as [H | H]; [subst | ]); [ .. | contradiction ] ];
  cbn [tool_handler tool_name tool_params list_graphs_tool];
  unfold list_graphs, get_code, find_direct_connections, nodes_semantic_search,
    docs_semantic_search, folder_tree_structure, get_usage_dependency_links,
    targetRepoUrl, post, post_headers, get_headers.


(** X5.  Outside multi-repo mode the [repository] argument of a tool
    call is not read: a call with it runs as the call without it. *)
Theorem single_repo_ignores_repository_argument :
  forall (cfg0 : Config) (repository : string) (tool : Tool),
    In tool (tools (registerTools cfg0 new_McpServer repository)) ->
    forall cfg a r remote,
      IS_MULTI_REPO cfg = false ->
      run (tool_handler tool cfg (with_arg "repository" r a)) remote
      = run (tool_handler tool cfg a) remote.
Proof.
  intros cfg0 repository tool Hreg cfg a r remote Hsingle.
  each_handler Hreg; unfold with_arg; cbn; rewrite ?Hsingle; reflexivity.
Qed.

(** X6.  In multi-repo mode the configured [CODEGPT_REPO_URL] is not
    read by the handlers: as long as [getGraphId] resolves the same
    graph, a tool call runs the same whatever that URL is. *)
Theorem multi_repo_ignores_configured_url :
  forall (cfg0 : Config) (repository : string) (tool : Tool),
    In tool (tools (registerTools cfg0 new_McpServer repository)) ->
    forall cfg a url remote,
      IS_MULTI_REPO cfg = true ->
      getGraphId (set_REPO_URL url cfg) (a "graphId") = getGraphId cfg (a "graphId") ->
      run (tool_handler tool (set_REPO_URL url cfg) a) remote
      = run (tool_handler tool cfg a) remote.
Proof.
  intros cfg0 repository tool Hreg cfg a url remote Hmulti Hgraph.
  each_handler Hreg;
    cbn [set_REPO_URL CODEGPT_API_KEY CODEGPT_ORG_ID IS_MULTI_REPO CODEGPT_REPO_URL];
    rewrite ?Hmulti, ?Hgraph; reflexivity.
Qed.

(** X7.  Unlike a failure of the remote call, a failure of
    [getGraphId] is not turned into text: when the required parameters
    are there and [getGraphId] throws, every tool but list-graphs throws
    that error and makes no call. *)
Theorem graph_id_error_is_not_caught :
  forall (cfg0 : Config) (repository : string) (tool : Tool),
    In tool (tools (registerTools cfg0 new_McpServer repository)) ->
    tool_name tool <> "list-graphs" ->
    forall cfg a remote e,
      (forall p, In (p, true) (tool_params tool) -> truthy (a p) = true) ->
      getGraphId cfg (a "graphId") = Throw e ->
      run (tool_handler tool cfg a) remote = ([], Throw e).
Proof.
  intros cfg0 repository tool Hreg Hname cfg a remote e Hparams Hgraph.
  each_handler Hreg; cbn [tool_name tool_params] in *; try contradiction.
  all: unfold run, bind, lift, throw; rewrite Hgraph.
  all: try (rewrite (Hparams _ (or_introl eq_refl)); cbn [negb]); reflexivity.
Qed.

End HandlerInputs.


Lemma single_repo_ignores_repository_argument_witness :
  run (tool_handler sample_get_code sample_config
                    (with_arg "repository" "acme/gadgets" (with_arg "name" "Foo" no_args)))
      (answering (JObj []))
  = run (tool_handler sample_get_code sample_config (with_arg "name" "Foo" no_args))
        (answering (JObj [])).
Proof.
  exact (@single_repo_ignores_repository_argument spec_utils sample_config ""
           sample_get_code ltac:(simpl; left; reflexivity)
           sample_config (with_arg "name" "Foo" no_args) "acme/gadgets"
           (answering (JObj [])) eq_refl).
Defined.

Lemma multi_repo_ignores_configured_url_witness :
  run (tool_handler sample_get_code (set_REPO_URL None multi_config)
                    (with_arg "name" "Foo" no_args)) (answering (JObj []))
  = run (tool_handler sample_get_code multi_config (with_arg "name" "Foo" no_args))
        (answering (JObj [])).
Proof.
  exact (@multi_repo_ignores_configured_url spec_utils sample_config ""
           sample_get_code ltac:(simpl; left; reflexivity)
           multi_config (with_arg "name" "Foo" no_args) None
           (answering (JObj [])) eq_refl eq_refl).
Defined.

Lemma graph_id_error_is_not_caught_witness :
  run (@get_code strict_utils unconfigured (with_arg "name" "Foo" no_args))
      unreachable_remote
  = ([], Throw (Error "graphId is required")).
Proof.
  refine (@graph_id_error_is_not_caught strict_utils unconfigured ""
            (mkTool "get-code" (Some "") [("name", true); ("path", false)]
                    (@get_code strict_utils))
            ltac:(simpl; right; left; reflexivity) ltac:(discriminate)
            unconfigured (with_arg "name" "Foo" no_args) unreachable_remote
            (Error "graphId is required") _ eq_refl).
  intros p [H | [H | []]]; [injection H as <-; reflexivity | discriminate H].
Defined.

(* ================================================================== *)
(** * Further properties of registration and of [createServer] *)
(* ================================================================== *)

Lemma startsWith_nonempty (p s : string) :
  p <> "" -> startsWith p s = true -> s <> "".
Proof.
  intros Hp H ->. destruct p; [contradiction | discriminate H].
Qed.

Lemma includes_nonempty (needle s : string) :
  needle <> "" -> includes needle s = true -> s <> "".
Proof.
  intros Hp H ->. destruct needle; [contradiction | discriminate H].
Qed.

(** What [process_cli] leaves in each field of [config]. *)
Lemma process_cli_fields (args : list string) (cfg : Config) :
  let repoUrls := filter repository_argument args in
  let cfg' := process_cli args cfg in
  CODEGPT_API_KEY cfg'
  = match find api_key_argument args with
    | Some key => Some key
    | None => CODEGPT_API_KEY cfg
    end
  /\ CODEGPT_ORG_ID cfg' = CODEGPT_ORG_ID cfg
  /\ CODEGPT_GRAPH_ID cfg' = CODEGPT_GRAPH_ID cfg
  /\ CODEGPT_REPO_URL cfg'
     = match repoUrls with
       | [url] => Some url
       | _ => CODEGPT_REPO_URL cfg
       end
  /\ IS_MULTI_REPO cfg' = IS_MULTI_REPO cfg || (2 <=? length repoUrls)%nat
  /\ REPO_LIST cfg'
     = if (2 <=? length repoUrls)%nat then Some repoUrls else REPO_LIST cfg.
Proof.
  cbv zeta. unfold process_cli.
  change (fun arg => includes "/" arg && negb (startsWith "sk-" arg))
    with repository_argument.
  change (fun arg => startsWith "sk-" arg) with api_key_argument.
  destruct (find api_key_argument args) as [key|] eqn:Hfind.
  - assert (Hset : truthy (Some key) = true).
    { apply find_some in Hfind. destruct Hfind as [_ Hsk].
      apply startsWith_nonempty in Hsk; [|discriminate].
      unfold truthy. apply String.eqb_neq in Hsk. now rewrite Hsk. }
    unfold or_else. rewrite Hset.
    destruct (filter repository_argument args) as [|url [|url' more]];
      cbn -[truthy]; rewrite ?orb_false_r, ?orb_true_r; repeat split.
  - unfold or_else. cbn [truthy].
    destruct (filter repository_argument args) as [|url [|url' more]];
      cbn; rewrite ?orb_false_r, ?orb_true_r; repeat split.
Qed.

Section FactoryFacts.
Context {utils : Utils}.

(** X8.  Whatever the configuration and the repository label,
    [registerTools] gives a new server tools with pairwise distinct
    names, the six fixed tools always among them, and every tool but
    list-graphs described with the same label. *)
Theorem registered_names_distinct :
  forall cfg repository,
    let registered := tools (registerTools cfg new_McpServer repository) in
    NoDup (map tool_name registered)
    /\ incl ["get-code"; "find-direct-connections"; "nodes-semantic-search";
             "docs-semantic-search"; "folder-tree-structure";
             "get-usage-dependency-links"]
            (map tool_name registered)
    /\ Forall (fun tool => tool_name tool = "list-graphs"
                           \/ tool_repository tool = Some repository) registered.
Proof.
  intros cfg repository. cbv zeta. rewrite registered_tools.
  destruct (_ && _); cbn.
  - split; [|split].
    + repeat constructor; cbn; intuition discriminate.
    + intros n Hn. right. exact Hn.
    + repeat (apply Forall_cons; [first [left; reflexivity | right; reflexivity]|]);
      apply Forall_nil.
  - split; [|split].
    + repeat constructor; cbn; intuition discriminate.
    + intros n Hn. exact Hn.
    + repeat (apply Forall_cons; [first [left; reflexivity | right; reflexivity]|]);
      apply Forall_nil.
Qed.

(** X9.  Of the CLI arguments, the first that starts with [sk-]
    becomes the API key; without one the key is left as it was, so CLI
    processing never unsets a key.  The organisation id and the graph id
    are not touched. *)
Theorem cli_api_key_rule :
  forall args cfg,
    CODEGPT_API_KEY (process_cli args cfg)
    = match find api_key_argument args with
      | Some key => Some key
      | None => CODEGPT_API_KEY cfg
      end
    /\ (truthy (CODEGPT_API_KEY cfg) = true ->
        truthy (CODEGPT_API_KEY (process_cli args cfg)) = true)
    /\ CODEGPT_ORG_ID (process_cli args cfg) = CODEGPT_ORG_ID cfg
    /\ CODEGPT_GRAPH_ID (process_cli args cfg) = CODEGPT_GRAPH_ID cfg.
Proof.
  intros args cfg.
  destruct (process_cli_fields args cfg) as (Hkey & Horg & Hgraph & _).
  repeat split; auto.
  intros Hset. rewrite Hkey.
  destruct (find api_key_argument args) as [key|] eqn:Hfind; [|exact Hset].
  apply find_some in Hfind. destruct Hfind as [_ Hsk].
  apply startsWith_nonempty in Hsk; [|discriminate].
  cbn. apply String.eqb_neq in Hsk. now rewrite Hsk.
Qed.

(** X10.  The repository arguments are those that contain a slash and
    do not start with [sk-].  Exactly one of them becomes
    [CODEGPT_REPO_URL]; two or more turn multi-repo mode on and are
    stored, in the order given, as the repository list; in every other
    respect the three fields keep their values, so multi-repo mode is
    never turned off and a repository URL is never cleared. *)
Theorem cli_repository_arguments :
  forall args cfg,
    let repoUrls := filter repository_argument args in
    let cfg' := process_cli args cfg in
    CODEGPT_REPO_URL cfg'
    = match repoUrls with
      | [url] => Some url
      | _ => CODEGPT_REPO_URL cfg
      end
    /\ IS_MULTI_REPO cfg' = IS_MULTI_REPO cfg || (2 <=? length repoUrls)%nat
    /\ REPO_LIST cfg'
       = if (2 <=? length repoUrls)%nat then Some repoUrls else REPO_LIST cfg.
Proof.
  intros args cfg.
  destruct (process_cli_fields args cfg) as (_ & _ & _ & Hurl & Hmulti & Hlist).
  auto.
Qed.

(** X11.  With a user configuration, [createServer] assigns the API
    key unconditionally, an empty one included, and each of the three
    optional fields only when it is a non-empty string; multi-repo mode
    and the repository list are left alone. *)
Theorem user_config_fields :
  forall mode argv u cfg,
    let cfg' := fst (createServer mode argv (Some u) cfg) in
    CODEGPT_API_KEY cfg' = Some (apiKey u)
    /\ CODEGPT_ORG_ID cfg'
       = (if truthy (orgId u) then orgId u else CODEGPT_ORG_ID cfg)
    /\ CODEGPT_GRAPH_ID cfg'
       = (if truthy (graphId u) then graphId u else CODEGPT_GRAPH_ID cfg)
    /\ CODEGPT_REPO_URL cfg'
       = (if truthy (repoUrl u) then repoUrl u else CODEGPT_REPO_URL cfg)
    /\ IS_MULTI_REPO cfg' = IS_MULTI_REPO cfg
    /\ REPO_LIST cfg' = REPO_LIST cfg.
Proof.
  intros mode argv u cfg. cbv zeta. unfold createServer, apply_userConfig.
  rewrite andb_false_r. cbn [fst].
  destruct (truthy (orgId u)), (truthy (graphId u)), (truthy (repoUrl u));
    repeat split.
Qed.

(** X12.  A server created in stdio mode from CLI arguments among
    which there is a repository argument does not offer list-graphs. *)
Theorem repository_argument_hides_list_graphs :
  forall argv cfg,
    existsb repository_argument (skipn 2 argv) = true ->
    has_tool "list-graphs" (snd (createServer false argv None cfg)) = false.
Proof.
  intros argv cfg Hsome.
  unfold createServer. cbn [negb andb snd].
  destruct (has_tool _ _) eqn:Hhas; [|reflexivity].
  apply list_graphs_registered in Hhas. destruct Hhas as (_ & Hurl & Hmulti).
  destruct (process_cli_fields (skipn 2 argv) cfg) as (_ & _ & _ & Hurl' & Hmulti' & _).
  apply existsb_exists in Hsome. destruct Hsome as (arg & Hin & Harg).
  assert (Hfiltered : In arg (filter repository_argument (skipn 2 argv)))
    by (apply filter_In; auto).
  destruct (filter repository_argument (skipn 2 argv)) as [|url [|url' more]].
  - contradiction.
  - destruct Hfiltered as [-> | []].
    rewrite Hurl' in Hurl. unfold repository_argument in Harg.
    apply andb_true_iff in Harg. destruct Harg as [Hslash _].
    apply includes_nonempty in Hslash; [|discriminate].
    cbn in Hurl. apply negb_false_iff, String.eqb_eq in Hurl. contradiction.
  - rewrite Hmulti' in Hmulti. cbn in Hmulti. rewrite orb_true_r in Hmulti.
    discriminate Hmulti.
Qed.

End FactoryFacts.

Lemma registered_names_distinct_witness :
  NoDup (map tool_name (tools (@registerTools spec_utils unconfigured new_McpServer "")))
  /\ has_tool "list-graphs" (@registerTools spec_utils unconfigured new_McpServer "") = true.
Proof.
  split.
  - exact (proj1 (@registered_names_distinct spec_utils unconfigured "")).
  - reflexivity.
Defined.

Lemma cli_api_key_rule_witness :
  truthy (CODEGPT_API_KEY (process_cli ["acme/widgets"] sample_config)) = true.
Proof.
  exact (proj1 (proj2 (cli_api_key_rule ["acme/widgets"] sample_config)) eq_refl).
Defined.

Lemma repository_argument_hides_list_graphs_witness :
  has_tool "list-graphs"
    (snd (@createServer spec_utils false ["node"; "index.js"; "acme/widgets"] None
            unconfigured)) = false.
Proof.
  exact (@repository_argument_hides_list_graphs spec_utils
           ["node"; "index.js"; "acme/widgets"] unconfigured eq_refl).
Defined.

(* ================================================================== *)
(** * The stdio server and the entry point *)
(* ================================================================== *)

Section EntryFacts.
Context {utils : Utils}.

(** X13.  [startStdioServer] throws exactly when neither an API key
    nor a repository URL nor multi-repo mode is configured, and then
    with the "CODEGPT_API_KEY is not set" error; otherwise it serves the
    tools registered under the configuration.  It does start without an
    API key when a repository is configured, but whenever the server it
    starts offers list-graphs, an API key is set. *)
Theorem stdio_start_fails_iff_nothing_configured :
  forall cfg,
    (forall e,
        snd (startStdioServer cfg) = Throw e <->
        e = stdio_key_error
        /\ truthy (CODEGPT_API_KEY cfg) = false
        /\ truthy (CODEGPT_REPO_URL cfg) = false
        /\ IS_MULTI_REPO cfg = false)
    /\ (forall server,
           snd (startStdioServer cfg) = Ok server ->
           server = registerTools cfg new_McpServer (repository_label cfg)
           /\ (has_tool "list-graphs" server = true ->
               truthy (CODEGPT_API_KEY cfg) = true)).
Proof.
  intros cfg. unfold startStdioServer.
  destruct (negb (truthy (CODEGPT_API_KEY cfg)) && negb (truthy (CODEGPT_REPO_URL cfg))
            && negb (IS_MULTI_REPO cfg)) eqn:Hcond; cbn [snd].
  - apply andb_true_iff in Hcond. destruct Hcond as [Hcond Hmulti].
    apply andb_true_iff in Hcond. destruct Hcond as [Hkey Hurl].
    apply negb_true_iff in Hkey, Hurl, Hmulti.
    split.
    + intros e. split.
      * intros H. injection H as <-. auto.
      * intros (-> & _). reflexivity.
    + intros server H. discriminate H.
  - split.
    + intros e. split.
      * intros H. discriminate H.
      * intros (_ & H1 & H2 & H3). rewrite H1, H2, H3 in Hcond. discriminate Hcond.
    + intros server H. injection H as <-. split; [reflexivity|].
      intros Hhas. apply list_graphs_registered in Hhas.
      destruct Hhas as (_ & Hurl & Hmulti).
      rewrite Hurl, Hmulti in Hcond. cbn in Hcond.
      destruct (truthy (CODEGPT_API_KEY cfg)); [reflexivity | discriminate Hcond].
Qed.

(** X14.  The lines written at startup depend on the API key, the
    organisation id and the graph id only through whether each is set:
    replacing them by other values that are set, or unset, alike gives
    the same lines. *)
Theorem startup_log_hides_values :
  forall cfg key org graph,
    truthy key = truthy (CODEGPT_API_KEY cfg) ->
    truthy org = truthy (CODEGPT_ORG_ID cfg) ->
    truthy graph = truthy (CODEGPT_GRAPH_ID cfg) ->
    fst (startStdioServer (set_API_KEY key (set_ORG_ID org (set_GRAPH_ID graph cfg))))
    = fst (startStdioServer cfg).
Proof.
  intros cfg key org graph Hkey Horg Hgraph.
  unfold startStdioServer, debug_info, repository_errors.
  cbn [set_API_KEY set_ORG_ID set_GRAPH_ID CODEGPT_API_KEY CODEGPT_ORG_ID
       CODEGPT_GRAPH_ID CODEGPT_REPO_URL IS_MULTI_REPO REPO_LIST].
  rewrite Hkey, Horg, Hgraph.
  destruct (_ && _); reflexivity.
Qed.


End EntryFacts.

Example parseInt_samples :
  parseInt "8080" = Num 8080
  /\ parseInt " 42px" = Num 42
  /\ parseInt "-7" = Num (-7)
  /\ parseInt "http" = NaN.
Proof. repeat split. Qed.

Lemma stdio_start_fails_iff_nothing_configured_witness :
  snd (@startStdioServer spec_utils unconfigured) = Throw stdio_key_error.
Proof.
  apply (proj1 (@stdio_start_fails_iff_nothing_configured spec_utils unconfigured)).
  repeat split.
Defined.

Lemma startup_log_hides_values_witness :
  fst (@startStdioServer spec_utils
         (set_API_KEY (Some "sk-other")
            (set_ORG_ID None (set_GRAPH_ID (Some "graph-2") sample_config))))
  = fst (@startStdioServer spec_utils sample_config).
Proof.
  exact (@startup_log_hides_values spec_utils sample_config (Some "sk-other") None
           (Some "graph-2") eq_refl eq_refl eq_refl).
Defined.


(* ================================================================== *)
(** * Further properties of the session table *)
(* ================================================================== *)

Section TableValues.
Variable V : Type.
Implicit Types (m : JsMap.t V) (k : string) (v : V).

Lemma values_set k v m x :
  In x (map snd (JsMap.set k v m)) -> x = v \/ In x (map snd m).
Proof.
  induction m as [|[k0 v0] m IH]; cbn.
  - intuition.
  - destruct (k0 =? k); cbn; intuition.
Qed.

Lemma values_delete k m x :
  In x (map snd (JsMap.delete k m)) -> In x (map snd m).
Proof.
  induction m as [|[k0 v0] m IH]; cbn; auto.
  destruct (k0 =? k); cbn; intuition.
Qed.

Lemma values_set_NoDup k v m :
  NoDup (map snd m) -> ~ In v (map snd m) -> NoDup (map snd (JsMap.set k v m)).
Proof.
  induction m as [|[k0 v0] m IH]; cbn; intros Hnd Hnew.
  - constructor; [intros [] | constructor].
  - inversion Hnd as [|? ? Hfresh Hrest]; subst.
    destruct (k0 =? k); cbn.
    + constructor; [tauto | exact Hrest].
    + constructor; [|apply IH; tauto].
      intros Hin. apply values_set in Hin. destruct Hin as [-> | Hin]; tauto.
Qed.

Lemma values_delete_NoDup k m :
  NoDup (map snd m) -> NoDup (map snd (JsMap.delete k m)).
Proof.
  induction m as [|[k0 v0] m IH]; cbn; intros Hnd; auto.
  inversion Hnd as [|? ? Hfresh Hrest]; subst.
  destruct (k0 =? k); cbn; auto.
  constructor; [|auto]. intros Hin. apply values_delete in Hin. contradiction.
Qed.

Lemma same_value_same_key k k' v m :
  NoDup (map snd m) -> In (k, v) m -> In (k', v) m -> k = k'.
Proof.
  induction m as [|[k0 v0] m IH]; cbn; intros Hnd H1 H2; [contradiction|].
  inversion Hnd as [|? ? Hfresh Hrest]; subst.
  destruct H1 as [H1 | H1], H2 as [H2 | H2].
  - congruence.
  - exfalso. apply Hfresh. apply (in_map snd) in H2.
    replace v0 with v by congruence. exact H2.
  - exfalso. apply Hfresh. apply (in_map snd) in H1.
    replace v0 with v by congruence. exact H1.
  - auto.
Qed.

Lemma delete_absent k m : ~ In k (map fst m) -> JsMap.delete k m = m.
Proof.
  induction m as [|[k0 v0] m IH]; cbn; intros Habs; auto.
  destruct (String.eqb_spec k0 k); [tauto|]. f_equal. apply IH. tauto.
Qed.

Lemma delete_present_length k v m :
  distinct_keys m -> In (k, v) m ->
  length (JsMap.delete k m) = pred (length m).
Proof.
  unfold distinct_keys.
  induction m as [|[k0 v0] m IH]; cbn; intros Hnd Hin; [contradiction|].
  inversion Hnd as [|? ? Hfresh Hrest]; subst.
  destruct (String.eqb_spec k0 k) as [-> | Hne].
  - now rewrite delete_absent.
  - destruct Hin as [[= -> _] | Hin]; [contradiction|].
    cbn. rewrite (IH Hrest Hin). destruct m; [contradiction | reflexivity].
Qed.

End TableValues.

Section Routing.
Context {utils : Utils}.

Lemma session_transport_None sessionId (m : JsMap.t Transport) :
  session_transport sessionId m = None <->
  (forall s, sessionId = Some s -> s = "" \/ JsMap.get s m = None).
Proof.
  split.
  - intros Hnone s ->.
    destruct (String.eqb_spec s ""); [auto|].
    destruct (JsMap.get s m) as [t|] eqn:Hget; [|auto].
    assert (Hsome : session_transport (Some s) m = Some t)
      by (apply session_transport_Some; eauto).
    rewrite Hsome in Hnone. discriminate Hnone.
  - intros H. destruct (session_transport sessionId m) as [t|] eqn:Hst; [|reflexivity].
    apply session_transport_Some in Hst. destruct Hst as (s & Hs & Hne & Hget).
    destruct (H s Hs) as [-> | Hnone]; [contradiction | congruence].
Qed.

(** X16.  The handler constructs a transport exactly for a POST that
    arrives with an API key in force and with a session id that is
    missing, empty or not a key of the table; the transport is the next
    one in construction order, and no other request constructs one. *)
Theorem transport_constructed_iff :
  forall st req t,
    (snd (mcp_endpoint st req) = Opened t <->
     t = constructed st
     /\ truthy (effective_key st req) = true
     /\ method req = "POST"
     /\ (forall s, mcp_session_id req = Some s ->
                   s = "" \/ JsMap.get s (transports st) = None))
    /\ (constructed (fst (mcp_endpoint st req))
        = match snd (mcp_endpoint st req) with
          | Opened _ => S (constructed st)
          | _ => constructed st
          end).
Proof.
  intros st req t. split.
  - rewrite <- session_transport_None. unfold effective_key, mcp_endpoint. cbn.
    destruct (truthy _); cbn;
      [|split; [intros H; discriminate H | intros (_ & H & _); discriminate H]].
    destruct (method req =? "GET") eqn:Hg.
    { apply String.eqb_eq in Hg.
      destruct (session_transport _ _); cbn;
        (split; [intros H; discriminate H
                | intros (_ & _ & Hp & _); rewrite Hg in Hp; discriminate Hp]). }
    destruct (method req =? "POST") eqn:Hp.
    { apply String.eqb_eq in Hp.
      destruct (session_transport _ _) eqn:Hs; cbn; split.
      - intros H. discriminate H.
      - intros (_ & _ & _ & Hn). discriminate Hn.
      - intros [= <-]. auto.
      - intros (-> & _). reflexivity. }
    apply String.eqb_neq in Hp.
    destruct (method req =? "DELETE"); destruct (session_transport _ _); cbn;
      (split; [intros H; discriminate H | intros (_ & _ & Hm & _); contradiction]).
  - unfold mcp_endpoint. cbn.
    destruct (truthy _); cbn; [|reflexivity].
    destruct (session_transport _ _);
      repeat (destruct (_ =? _); cbn; try reflexivity).
Qed.


(** X18.  The close callback of a transport touches nothing but the
    table, and there nothing but an entry of that transport: an id maps
    to another transport afterwards exactly when it did before; a
    transport that is in no entry leaves the table as it is; one that
    is in an entry takes exactly one entry out. *)
Theorem close_removes_only_that_transport :
  forall st t,
    reachable st ->
    (forall sid t',
        t' <> t ->
        (JsMap.get sid (transports (onclose t st)) = Some t' <->
         JsMap.get sid (transports st) = Some t'))
    /\ (not_in_table t st -> onclose t st = st)
    /\ ((exists sid, JsMap.get sid (transports st) = Some t) ->
        length (transports (onclose t st)) = pred (length (transports st)))
    /\ config (onclose t st) = config st
    /\ constructed (onclose t st) = constructed st
    /\ connected (onclose t st) = connected st.
Proof.
  intros st t Hreach.
  destruct (reachable_well_formed Hreach) as (Hkeys & Hin & _).
  unfold onclose.
  destruct (find _ _) as [[k v]|] eqn:Hfind.
  - pose proof (find_some _ _ Hfind) as [Hentry Hv]. cbn in Hv.
    apply Nat.eqb_eq in Hv. subst v. unfold JsMap.entries in Hentry.
    assert (Hk : truthy (Some k) = true).
    { destruct (Hin _ _ Hentry) as [Hne _]. cbn.
      apply String.eqb_neq in Hne. now rewrite Hne. }
    rewrite Hk. cbn. split; [|split; [|split; [|auto]]].
    + intros sid t' Hother.
      destruct (String.eqb_spec k sid) as [-> | Hne].
      * rewrite get_delete_same. split; [intros H; discriminate H|].
        intros Hget. apply In_get in Hentry; [|exact Hkeys].
        assert (Heq : Some t = Some t')
          by (transitivity (JsMap.get sid (transports st));
              [symmetry; exact Hentry | exact Hget]).
        injection Heq as <-. contradiction.
      * rewrite get_delete_other by exact Hne. reflexivity.
    + intros Habs. exfalso. apply (Habs k). apply In_get; assumption.
    + intros _. eapply delete_present_length; eauto.
  - split; [reflexivity|]. split; [reflexivity|]. split; [|auto].
    intros (sid & Hget). apply get_In in Hget.
    apply (find_none _ _ Hfind) in Hget. cbn in Hget.
    now rewrite Nat.eqb_refl in Hget.
Qed.

Lemma values_kept_distinct evs : forall st st',
  NoDup (map snd (transports st)) ->
  NoDup (initialized_in evs) ->
  (forall t, In t (map snd (transports st)) -> ~ In t (initialized_in evs)) ->
  steps st evs = Some st' ->
  NoDup (map snd (transports st')).
Proof.
  induction evs as [|ev evs IH]; cbn [steps]; intros st st' Hnd Honce Hfresh Hrun.
  - now injection Hrun as <-.
  - destruct (step st ev) as [st1|] eqn:Hstep; [|discriminate Hrun].
    destruct ev as [req | t sid | t | h outcome]; cbn [step initialized_in] in *.
    + injection Hstep as <-. apply (IH (fst (mcp_endpoint st req))); auto;
        rewrite endpoint_keeps_table; auto.
    + destruct (_ && _); [|discriminate Hstep].
      injection Hstep as <-. inversion Honce as [|? ? Hnew Honce']; subst.
      apply (IH (onsessioninitialized t sid st)); cbn; auto.
      * apply values_set_NoDup; [exact Hnd|].
        intros Hin. apply (Hfresh t Hin). now left.
      * intros x Hx. apply values_set in Hx. destruct Hx as [-> | Hx]; [exact Hnew|].
        intros Hlater. apply (Hfresh x Hx). now right.
    + destruct (_ <? _)%nat; [|discriminate Hstep].
      injection Hstep as <-. apply (IH (onclose t st)); auto; unfold onclose;
        destruct (find _ _) as [[k v]|]; [destruct (truthy _)| |destruct (truthy _)|];
        cbn; auto using values_delete_NoDup.
      intros x Hx. apply values_delete in Hx. auto.
    + injection Hstep as <-. apply (IH (resume h outcome st)); auto;
        destruct h, outcome; cbn; auto using values_delete_NoDup.
      intros x Hx. apply values_delete in Hx. auto.
Qed.

(** X19.  In every run in which each transport fires its
    initialization callback at most once, no two session ids of the
    table map to the same transport. *)
Theorem one_session_per_transport :
  forall cfg evs st,
    steps (startHttpServer cfg) evs = Some st ->
    NoDup (initialized_in evs) ->
    forall sid sid' t,
      JsMap.get sid (transports st) = Some t ->
      JsMap.get sid' (transports st) = Some t ->
      sid = sid'.
Proof.
  intros cfg evs st Hrun Honce sid sid' t Hget Hget'.
  apply get_In in Hget, Hget'.
  eapply same_value_same_key; [|exact Hget | exact Hget'].
  eapply values_kept_distinct; [| exact Honce | | exact Hrun]; cbn.
  - constructor.
  - intros x [].
Qed.

End Routing.

Lemma transport_constructed_iff_witness :
  snd (@mcp_endpoint spec_utils one_session (bearing "POST" "stale")) = Opened 1.
Proof.
  apply (proj1 (@transport_constructed_iff spec_utils one_session
                  (bearing "POST" "stale") 1)).
  repeat split. intros s H. injection H as <-. right. reflexivity.
Defined.


Lemma close_removes_only_that_transport_witness :
  length (transports (onclose 0 one_session)) = pred (length (transports one_session)).
Proof.
  apply (@close_removes_only_that_transport spec_utils one_session 0
           one_session_reachable).
  exists "s". reflexivity.
Defined.

Lemma one_session_per_transport_witness :
  NoDup (initialized_in [Arrives open_request; SessionInitialized 0 "s"])
  /\ "s" = "s".
Proof.
  split.
  - repeat constructor. intros [].
  - exact (@one_session_per_transport spec_utils sample_config
             [Arrives open_request; SessionInitialized 0 "s"] one_session eq_refl
             ltac:(repeat constructor; intros []) "s" "s" 0 eq_refl eq_refl).
Defined.

Section SessionServers.
Context {utils : Utils}.

(** X20.  In every reachable state, an entry of the table has a
    non-empty session id and a transport the handler constructed, and
    that transport is connected to a server of its own whose tools were
    registered when the session was opened. *)
Theorem table_entries_have_servers :
  forall st sid t,
    reachable st ->
    JsMap.get sid (transports st) = Some t ->
    sid <> ""
    /\ t < constructed st
    /\ exists server, nth_error (connected st) t = Some (t, server).
Proof.
  intros st sid t Hreach Hget.
  destruct (reachable_well_formed Hreach) as (_ & Hin & Hseq).
  apply get_In in Hget. destruct (Hin _ _ Hget) as [Hne Hlt].
  split; [exact Hne|]. split; [exact Hlt|].
  assert (Hnth : nth_error (map fst (connected st)) t = Some t).
  { rewrite Hseq, (nth_error_nth' _ 0) by (rewrite length_seq; exact Hlt).
    now rewrite seq_nth. }
  rewrite nth_error_map in Hnth.
  destruct (nth_error (connected st) t) as [[t' server]|]; [|discriminate Hnth].
  injection Hnth as ->. eauto.
Qed.

End SessionServers.

Lemma table_entries_have_servers_witness :
  "s" <> ""
  /\ 0 < constructed one_session
  /\ exists server, nth_error (connected one_session) 0 = Some (0, server).
Proof.
  exact (@table_entries_have_servers spec_utils one_session "s" 0
           one_session_reachable eq_refl).
Defined.
